(** * read_nasa: flattening NASA Li-ion battery cycle records into one table

    A shallow embedding of [src/utils/read_nasa.py].  The nested arrays that
    [scipy.io.loadmat] returns are lists, a Python exception is the [Raise]
    branch of a small error monad, numbers are IEEE binary64 floats, and the
    fragment of pandas the module calls ([DataFrame] from a dict, scalar
    column assignment, [concat]) is modelled next to the code that uses it. *)

From Stdlib Require Import ZArith Lia String Ascii List.
From Stdlib Require Import PrimFloat SpecFloat FloatOps.
From Stdlib Require DecimalString DecimalN DecimalFacts.
From stdpp Require Import base option list strings gmap.

Local Open Scope Z_scope.

(** ** Python exceptions and the error monad *)

Inductive exn : Set :=
| IndexError
| KeyError
| ValueError
| OverflowError
| FileNotFoundError.

Inductive result (A : Type) : Type :=
| Ok (a : A)
| Raise (e : exn).
Arguments Ok {A} a.
Arguments Raise {A} e.

#[global] Instance result_ret : MRet result := fun A a => Ok a.
#[global] Instance result_bind : MBind result := fun A B f m =>
  match m with
  | Ok a => f a
  | Raise e => Raise e
  end.

Definition is_Ok {A} (r : result A) : Prop := ∃ a, r = Ok a.
Definition raises {A} (r : result A) : Prop := ∃ e, r = Raise e.

(** [a[i]] for a non-negative index: [IndexError] when out of range. *)
Definition getitem {A} (a : list A) (i : nat) : result A :=
  match a !! i with
  | Some x => Ok x
  | None => Raise IndexError
  end.

(** [d[k]] on a Python dict: [KeyError] when absent. *)
Definition dict_get {V} (d : gmap string V) (k : string) : result V :=
  match d !! k with
  | Some v => Ok v
  | None => Raise KeyError
  end.

(** A list comprehension whose body may raise: elements are evaluated left
    to right and the first exception aborts the whole comprehension. *)
Fixpoint comprehension {A B} (f : A → result B) (l : list A) : result (list B) :=
  match l with
  | [] => Ok []
  | x :: l' => y ← f x; ys ← comprehension f l'; Ok (y :: ys)
  end.

(** ** Numbers *)

(** [int(x)] on a float: truncation toward zero; [nan] and the infinities
    raise. *)
Definition int (x : float) : result Z :=
  match Prim2SF x with
  | S754_zero _ => Ok 0
  | S754_infinity _ => Raise OverflowError
  | S754_nan => Raise ValueError
  | S754_finite s m e =>
      let a := if 0 <=? e then Z.pos m * 2 ^ e else Z.pos m / 2 ^ (- e) in
      Ok (if s then - a else a)
  end.

(** The float nearest to an integer, as the mixed subtraction [x - int(x)]
    converts its right operand. *)
Definition float_of_int (z : Z) : float :=
  SF2Prim (binary_normalize prec emax z 0 false).

(** ** datetime.datetime *)

Record datetime : Set := mk_datetime {
  year : Z; month : Z; day : Z;
  hour : Z; minute : Z; second : Z;
  microsecond : Z
}.

Definition is_leap (y : Z) : bool :=
  (y mod 4 =? 0) && (negb (y mod 100 =? 0) || (y mod 400 =? 0)).

Definition days_in_month (y m : Z) : Z :=
  if m =? 2 then (if is_leap y then 29 else 28)
  else if (m =? 4) || (m =? 6) || (m =? 9) || (m =? 11) then 30
  else 31.

Definition in_range (lo x hi : Z) : bool := (lo <=? x) && (x <=? hi).

(** An argument of the constructor is converted to a C [int]. *)
Definition fits_c_int (z : Z) : bool := in_range (- 2 ^ 31) z (2 ^ 31 - 1).

(** The constructor first converts its arguments, raising [OverflowError]
    for one that does not fit a C [int], then checks every field and raises
    [ValueError] for one out of range. *)
Definition datetime_new (y mo d h mi s us : Z) : result datetime :=
  if forallb fits_c_int [y; mo; d; h; mi; s; us]
  then
    if in_range 1 y 9999 && in_range 1 mo 12 && in_range 1 d (days_in_month y mo)
       && in_range 0 h 23 && in_range 0 mi 59 && in_range 0 s 59
       && in_range 0 us 999999
    then Ok (mk_datetime y mo d h mi s us)
    else Raise ValueError
  else Raise OverflowError.

(** ** _datevec2datetime *)

Definition _datevec2datetime (vec : list float) : result datetime :=
  y ← getitem vec 0%nat ≫= int;
  mo ← getitem vec 1%nat ≫= int;
  d ← getitem vec 2%nat ≫= int;
  h ← getitem vec 3%nat ≫= int;
  mi ← getitem vec 4%nat ≫= int;
  s ← getitem vec 5%nat ≫= int;
  us ← (v5 ← getitem vec 5%nat;
        v5' ← getitem vec 5%nat;
        w ← int v5';
        int ((v5 - float_of_int w) * 1000)%float);
  datetime_new y mo d h mi s us.

(** ** The table model: the part of pandas this module relies on *)

(** A cell holds a measurement, a type tag or a timestamp.  A missing entry
    is the float [nan], as pandas fills it. *)
Inductive cell : Set :=
| CFloat (x : float)
| CStr (s : string)
| CTime (d : datetime).

Definition NaN : cell := CFloat nan.

(** The value a dict maps a column name to: a scalar or a one-dimensional
    array. *)
Inductive value : Set :=
| Scalar (c : cell)
| Array (a : list cell).

(** A frame is its row labels and its columns, in column order. *)
Record DataFrame : Set := mk_frame {
  index : list nat;
  columns : list (string * list cell)
}.

Definition nrows (df : DataFrame) : nat := length (index df).

Definition RangeIndex (n : nat) : list nat := seq 0 n.

Fixpoint assoc {V} (k : string) (l : list (string * V)) : option V :=
  match l with
  | [] => None
  | (k', v) :: l' => if decide (k = k') then Some v else assoc k l'
  end.

Definition column (df : DataFrame) (name : string) : option (list cell) :=
  assoc name (columns df).

(** Lengths of the array values of a dict, in dict order. *)
Definition array_lengths (d : list (string * value)) : list nat :=
  omap (λ kv, match kv.2 with Array a => Some (length a) | Scalar _ => None end) d.

Definition broadcast (n : nat) (v : value) : list cell :=
  match v with
  | Scalar c => replicate n c
  | Array a => a
  end.

(** [DataFrame(d)] for a dict [d] of scalars and arrays.  The row count is
    the common length of the arrays and every scalar is repeated on every
    row.  Arrays of different lengths are refused, and so is a non-empty
    dict of scalars only, for which no row count is given. *)
Definition DataFrame_of_dict (d : list (string * value)) : result DataFrame :=
  match d with
  | [] => Ok (mk_frame [] [])
  | _ :: _ =>
      match array_lengths d with
      | [] => Raise ValueError
      | n :: ns =>
          if forallb (Nat.eqb n) ns
          then Ok (mk_frame (RangeIndex n) (prod_map id (broadcast n) <$> d))
          else Raise ValueError
      end
  end.

Fixpoint assoc_set {V} (k : string) (v : V) (l : list (string * V)) : list (string * V) :=
  match l with
  | [] => [(k, v)]
  | (k', v') :: l' =>
      if decide (k = k') then (k, v) :: l' else (k', v') :: assoc_set k v l'
  end.

(** [df[name] = c] with a scalar [c]: the column holds [c] on every row; it
    replaces a column of that name or is added after the last one. *)
Definition setitem (df : DataFrame) (name : string) (c : cell) : DataFrame :=
  mk_frame (index df) (assoc_set name (replicate (nrows df) c) (columns df)).

(** Column names of a list of frames, each once, in order of first
    appearance. *)
Fixpoint unique (seen names : list string) : list string :=
  match names with
  | [] => []
  | x :: names' =>
      if decide (x ∈ seen) then unique seen names' else x :: unique (x :: seen) names'
  end.

Definition union_columns (objs : list DataFrame) : list string :=
  unique [] (objs ≫= λ df, (columns df).*1).

(** The rows a frame contributes to column [name] of a concatenation. *)
Definition block (name : string) (df : DataFrame) : list cell :=
  default (replicate (nrows df) NaN) (column df name).

(** [concat(objs, ignore_index=..., sort=False)] along the rows. *)
Definition concat (objs : list DataFrame) (ignore_index : bool) : result DataFrame :=
  match objs with
  | [] => Raise ValueError
  | _ :: _ =>
      let labels := objs ≫= index in
      Ok (mk_frame
            (if ignore_index then RangeIndex (length labels) else labels)
            ((λ name, (name, objs ≫= block name)) <$> union_columns objs))
  end.

(** ** The nested arrays of a battery file *)

(** A field of a cycle's data block is a two-dimensional array. *)
Definition field : Set := list (list float).

(** A data block is a record whose fields are read by position. *)
Definition data_rec : Set := list field.

(** One element of the [cycle] struct array. *)
Record cycle_rec : Set := mk_cycle {
  type_ : list string;
  time : list (list float);
  ambient_temperature : list (list float);
  data : list (list data_rec)
}.

(** [cycles[name]] on a two-dimensional struct array. *)
Definition struct_field {R A} (f : R → A) (a : list (list R)) : list (list A) :=
  (λ row : list R, f <$> row) <$> a.

Record top_rec : Set := mk_top { cycle : list (list cycle_rec) }.

(** ** DATA_FIELDS *)

Definition DATA_FIELDS : gmap string (list string) :=
  list_to_map [
    ("charge", [
       "Voltage_measured"; "Current_measured"; "Temperature_measured";
       "Current_charge"; "Voltage_charge"; "Time"
     ]);
    ("discharge", [
       "Voltage_measured"; "Current_measured"; "Temperature_measured";
       "Current_charge"; "Voltage_charge"; "Time"; "Capacity"
     ]);
    ("impedance", [
       "Sense_current"; "Battery_current"; "Current_ratio";
       "Battery_impedance"; "Rectified_impedance"; "Re"; "Rct"
     ])
  ]%string.

(** ** _get_metadata *)

Record metadata : Set := mk_meta {
  types : list string;
  start_times : list datetime;
  ambient_temps : list float
}.

Definition _get_metadata (cycles : list (list cycle_rec)) : result metadata :=
  tys ← (row ← getitem (struct_field type_ cycles) 0%nat;
         comprehension (λ arr, getitem arr 0%nat) row);
  sts ← (row ← getitem (struct_field time cycles) 0%nat;
         comprehension (λ arr, getitem arr 0%nat ≫= _datevec2datetime) row);
  ats ← (row ← getitem (struct_field ambient_temperature cycles) 0%nat;
         comprehension (λ arr, r ← getitem arr 0%nat; getitem r 0%nat) row);
  Ok (mk_meta tys sts ats).

(** ** _get_metadata_at *)

Definition _get_metadata_at (meta : metadata) (i : nat)
  : result (string * datetime * float) :=
  ty ← getitem (types meta) i;
  st ← getitem (start_times meta) i;
  at_ ← getitem (ambient_temps meta) i;
  Ok (ty, st, at_).

(** ** _cycle2df *)

(** The loop over [cycle_dict.items()]: an array of one element is replaced
    by that element. *)
Definition unwrap_single (data : list float) : value :=
  match data with
  | [x] => Scalar (CFloat x)
  | _ => Array (CFloat <$> data)
  end.

Definition extract (cycle_data : list (list data_rec)) (j : nat) : result (list float) :=
  a ← getitem cycle_data 0%nat;
  r ← getitem a 0%nat;
  f ← getitem r j;
  getitem f 0%nat.

(** [enumerate(l, start)] *)
Fixpoint enumerate_from {A} (start : nat) (l : list A) : list (nat * A) :=
  match l with
  | [] => []
  | x :: l' => (start, x) :: enumerate_from (S start) l'
  end.

Definition enumerate {A} (l : list A) : list (nat * A) := enumerate_from 0 l.

(** The index [i] is a natural number: [read_nasa] passes the values of
    [range(...)]. *)
Definition _cycle2df (cycle_data : list (list data_rec)) (meta : metadata) (i : nat)
  : result DataFrame :=
  '(dtype, start_time, ambient_temp) ← _get_metadata_at meta i;
  fields ← dict_get DATA_FIELDS dtype;
  cycle_dict ← comprehension
                 (λ jf : nat * string, data ← extract cycle_data jf.1; Ok (jf.2, data))
                 (enumerate fields);
  let cycle_dict := prod_map id unwrap_single <$> cycle_dict in
  df ← DataFrame_of_dict cycle_dict;
  let df := setitem df "type" (CStr dtype) in
  let df := setitem df "start_time" (CTime start_time) in
  let df := setitem df "ambient_temp" (CFloat ambient_temp) in
  Ok df.

(** ** read_nasa *)

Definition digits (n : N) : string :=
  DecimalString.NilZero.string_of_uint (N.to_uint n).

Definition zfill (width : nat) (s : string) : string :=
  string_of_list_ascii (replicate (width - String.length s) "0"%char) +:+ s.

(** ['%02d' % i]: at least two characters, zeros after the sign. *)
Definition format_02d (i : Z) : string :=
  if i <? 0 then "-" +:+ zfill 1 (digits (Z.to_N (- i)))
  else zfill 2 (digits (Z.to_N i)).

Definition battery_name (i : Z) : string := "B00" +:+ format_02d i.

Definition file_path (i : Z) : string :=
  "./data/raw/" +:+ battery_name i +:+ ".mat".

Section ReadNasa.

(** The file system as [loadmat] sees it: the variables of the file at a
    path, or an exception. *)
Variable loadmat : string → result (gmap string (list (list top_rec))).

(** Lines 156-162: from the battery index to the [cycle] struct array. *)
Definition load_cycles (i : Z) : result (list (list cycle_rec)) :=
  mat_contents ← loadmat (file_path i);
  top_level ← dict_get mat_contents (battery_name i);
  top ← (r ← getitem top_level 0%nat; getitem r 0%nat);
  Ok (cycle top).

(** The list handed to [concat]: the frame of every cycle, for [i] in
    [range(len(cycles_data[0]))].  [DataFrame(df)] on a frame is that
    frame. *)
Definition cycle_frames (cycles : list (list cycle_rec)) (meta : metadata)
  : result (list DataFrame) :=
  let cycles_data := struct_field data cycles in
  row ← getitem cycles_data 0%nat;
  comprehension
    (λ i, cd ← (r ← getitem cycles_data 0%nat; getitem r i); _cycle2df cd meta i)
    (seq 0 (length row)).

Definition read_nasa (i : Z) : result DataFrame :=
  cycles ← load_cycles i;
  meta ← _get_metadata cycles;
  dfs ← cycle_frames cycles meta;
  concat dfs true.

End ReadNasa.

(** * Vocabulary of the properties *)

Definition digit_char (d : Z) : ascii := ascii_of_nat (48 + Z.to_nat d).

Definition is_digit (c : ascii) : Prop := ∃ d, 0 ≤ d ≤ 9 ∧ c = digit_char d.

(** The path the specification describes: the fixed directory, [B00], two
    decimal digits and the extension. *)
Definition two_digit_path (d1 d2 : ascii) : string :=
  "./data/raw/B00" +:+ String d1 (String d2 ".mat").

(** What [_get_metadata] reads in one cycle record. *)
Definition cycle_type (c : cycle_rec) (ty : string) : Prop :=
  type_ c !! 0%nat = Some ty.

Definition cycle_start (c : cycle_rec) (st : datetime) : Prop :=
  ∃ vec, time c !! 0%nat = Some vec ∧ _datevec2datetime vec = Ok st.

Definition cycle_ambient (c : cycle_rec) (at_ : float) : Prop :=
  ∃ r, ambient_temperature c !! 0%nat = Some r ∧ r !! 0%nat = Some at_.

(** The sequences [cycle_data[0][0][j][0]] for the positions of [fields]. *)
Definition extracted (cycle_data : list (list data_rec)) (fields : list string)
    (seqs : list (list float)) : Prop :=
  length seqs = length fields ∧
  ∀ j s, seqs !! j = Some s → extract cycle_data j = Ok s.

(** All sequences of more or fewer than one element have [n] elements, and
    there is one. *)
Definition common_length (seqs : list (list float)) (n : nat) : Prop :=
  (∃ s, s ∈ seqs ∧ length s ≠ 1%nat) ∧
  ∀ s, s ∈ seqs → length s ≠ 1%nat → length s = n.

(** The column a field sequence becomes in a table of [n] rows. *)
Definition field_column (n : nat) (s : list float) : list cell :=
  broadcast n (unwrap_single s).

Definition meta_columns (n : nat) (ty : string) (st : datetime) (at_ : float)
  : list (string * list cell) :=
  [("type"%string, replicate n (CStr ty));
   ("start_time"%string, replicate n (CTime st));
   ("ambient_temp"%string, replicate n (CFloat at_))].

Definition cycle_frame (n : nat) (fields : list string) (seqs : list (list float))
    (ty : string) (st : datetime) (at_ : float) : DataFrame :=
  mk_frame (RangeIndex n)
           (zip fields (field_column n <$> seqs) ++ meta_columns n ty st at_).

(** [df.at[r, name]] *)
Definition at_row (df : DataFrame) (r : nat) (name : string) : option cell :=
  column df name ≫= (.!! r).

(** Every column of a frame has one cell per row. *)
Definition frame_wf (df : DataFrame) : Prop :=
  Forall (λ kc : string * list cell, length kc.2 = nrows df) (columns df).

(** The number of rows before the block of the [i]-th frame. *)
Definition offset (objs : list DataFrame) (i : nat) : nat :=
  sum_list (nrows <$> take i objs).

(** [p] holds on the [fuel] integers from [k] on. *)
Fixpoint all_from (fuel : nat) (k : Z) (p : Z → bool) : bool :=
  match fuel with
  | O => true
  | S fuel' => if p k then all_from fuel' (k + 1) p else false
  end.

(** A date vector of whole numbers. *)
Definition whole_datevec (y mo d h mi s : Z) : list float :=
  float_of_int <$> [y; mo; d; h; mi; s].

(** The fields of a timestamp are those of a calendar date and a time of
    day. *)
Definition valid_datetime (d : datetime) : Prop :=
  1 ≤ year d ≤ 9999 ∧ 1 ≤ month d ≤ 12 ∧
  1 ≤ day d ≤ days_in_month (year d) (month d) ∧
  0 ≤ hour d ≤ 23 ∧ 0 ≤ minute d ≤ 59 ∧ 0 ≤ second d ≤ 59 ∧
  0 ≤ microsecond d ≤ 999999.

(** Column names in order of first appearance: the names of the first
    frame, then the names of the second frame that were not seen before,
    and so on. *)
Fixpoint first_appearance (seen : list string) (frames : list (list string))
  : list string :=
  match frames with
  | [] => []
  | names :: frames' =>
      let new := filter (λ x, x ∉ seen) names in
      new ++ first_appearance (seen ++ new) frames'
  end.

(** * Example data *)

#[local] Set Warnings "-inexact-float".

(** The date vector given as example in the docstring of
    [_datevec2datetime]. *)
Definition example_vec : list float := [2008; 5; 22; 21; 48; 39.015]%float.

Definition example_start : datetime := mk_datetime 2008 5 22 21 48 39 15.

Definition example_meta : metadata :=
  mk_meta ["discharge"%string] [example_start] [24%float].

(** A discharge cycle of two samples: six two-element measurement
    sequences and a capacity of one element. *)
Definition example_discharge : list (list data_rec) :=
  [[ [ [[1; 2]]; [[3; 4]]; [[5; 6]]; [[7; 8]]; [[9; 10]]; [[11; 12]];
       [[2.1]] ]%float ]].

Definition discharge_fields : list string :=
  ["Voltage_measured"; "Current_measured"; "Temperature_measured";
   "Current_charge"; "Voltage_charge"; "Time"; "Capacity"]%string.

Definition example_sequences : list (list float) :=
  [[1; 2]; [3; 4]; [5; 6]; [7; 8]; [9; 10]; [11; 12]; [2.1]]%float.

Definition example_frame : DataFrame :=
  cycle_frame 2 discharge_fields example_sequences "discharge" example_start 24.

(** A charge cycle whose second field has three samples and the others
    two. *)
Definition ragged_charge : list (list data_rec) :=
  [[ [ [[1; 2]]; [[3; 4; 5]]; [[5; 6]]; [[7; 8]]; [[9; 10]]; [[11; 12]] ]%float ]].

Definition ragged_meta : metadata :=
  mk_meta ["charge"%string] [example_start] [24%float].

(** The [time] array of a cycle: one row, the date vector. *)
Definition example_datevec : list (list float) := [example_vec].

(** A file system holding one battery file, [B0005.mat], whose variable
    [B0005] is a 1x1 struct with the given row of cycles. *)
Definition one_file (row : list cycle_rec)
  : string → result (gmap string (list (list top_rec))) :=
  λ path,
    if String.eqb path "./data/raw/B0005.mat"
    then Ok {[ "B0005"%string := [[mk_top [row]]] ]}
    else Raise FileNotFoundError.

Definition discharge_cycle : cycle_rec :=
  mk_cycle ["discharge"%string] example_datevec [[24%float]] example_discharge.

(** A charge cycle whose data block lacks its last field. *)
Definition short_cycle : cycle_rec :=
  mk_cycle ["charge"%string] example_datevec [[24%float]]
    [[ [ [[1; 2]]; [[3; 4]]; [[5; 6]]; [[7; 8]]; [[9; 10]] ]%float ]].

(** A charge cycle whose data block has the seven fields of a discharge. *)
Definition long_cycle : cycle_rec :=
  mk_cycle ["charge"%string] example_datevec [[24%float]] example_discharge.

(** A cycle of a type the schema table does not know. *)
Definition rest_cycle : cycle_rec :=
  mk_cycle ["rest"%string] example_datevec [[24%float]] example_discharge.

(** A discharge cycle of a single sample. *)
Definition single_cycle : cycle_rec :=
  mk_cycle ["discharge"%string] example_datevec [[24%float]]
    [[ [ [[1]]; [[3]]; [[5]]; [[7]]; [[9]]; [[11]]; [[2.1]] ]%float ]].

Definition charge_fields : list string :=
  ["Voltage_measured"; "Current_measured"; "Temperature_measured";
   "Current_charge"; "Voltage_charge"; "Time"]%string.

(** A charge cycle of three samples. *)
Definition charge_cycle : cycle_rec :=
  mk_cycle ["charge"%string] example_datevec [[24%float]]
    [[ [ [[1; 2; 3]]; [[4; 5; 6]]; [[7; 8; 9]]; [[10; 11; 12]]; [[13; 14; 15]];
         [[16; 17; 18]] ]%float ]].

(** The table of a file with a charge cycle followed by a discharge
    cycle. *)
Definition two_cycle_table : DataFrame :=
  match read_nasa (one_file [charge_cycle; discharge_cycle]) 5 with
  | Ok df => df
  | Raise _ => mk_frame [] []
  end.

(** The six fields of a charge cycle of two samples. *)
Definition example_charge_block : data_rec :=
  [ [[1; 2]]; [[3; 4]]; [[5; 6]]; [[7; 8]]; [[9; 10]]; [[11; 12]] ]%float.

(** The type tags that have a schema. *)
Definition known_type (ty : string) : Prop :=
  ty = "charge"%string ∨ ty = "discharge"%string ∨ ty = "impedance"%string.

(** Reading a string of decimal digits, leading zeros allowed. *)
Definition decode_digits (s : string) : option N :=
  N.of_uint <$> DecimalString.NilZero.uint_of_string s.

(** * Properties *)

(** ** The error monad and indexing *)

Lemma bind_Ok {A B} (m : result A) (f : A → result B) (b : B) :
  m ≫= f = Ok b ↔ ∃ a, m = Ok a ∧ f a = Ok b.
Proof.
  destruct m as [a|e]; simpl; split.
  - eauto.
  - intros (a' & Ha & H). by injection Ha as ->.
  - discriminate.
  - intros (a' & Ha & _). discriminate.
Qed.

Lemma bind_raises_l {A B} (m : result A) (f : A → result B) :
  raises m → raises (m ≫= f).
Proof. intros [e ->]. by exists e. Qed.

Lemma bind_raises_r {A B} (m : result A) (f : A → result B) :
  (∀ a, m = Ok a → raises (f a)) → raises (m ≫= f).
Proof. destruct m as [a|e]; simpl; intros H; [by apply H | by exists e]. Qed.

Lemma raises_not_Ok {A} (r : result A) : raises r ↔ ∀ a, r ≠ Ok a.
Proof.
  split.
  - by intros [e ->] a.
  - destruct r as [a|e]; intros H; [by destruct (H a) | by exists e].
Qed.

Lemma getitem_Ok {A} (a : list A) (i : nat) (x : A) :
  getitem a i = Ok x ↔ a !! i = Some x.
Proof. unfold getitem. destruct (a !! i); naive_solver. Qed.

Lemma getitem_Raise {A} (a : list A) (i : nat) (e : exn) :
  getitem a i = Raise e ↔ (length a ≤ i)%nat ∧ e = IndexError.
Proof.
  unfold getitem. destruct (a !! i) as [x|] eqn:H.
  - apply lookup_lt_Some in H. split; [discriminate | lia].
  - apply lookup_ge_None in H.
    split; [intros [= <-]; by split | by intros [_ ->]].
Qed.

(** ** Numbers *)

Example int_truncates :
  int 39.015 = Ok 39 ∧ int (-2.5) = Ok (-2) ∧ int 0.5 = Ok 0 ∧
  int nan = Raise ValueError ∧ int infinity = Raise OverflowError.
Proof. by vm_compute. Qed.

Example float_of_int_39 : float_of_int 39 = 39%float.
Proof. by vm_compute. Qed.

Example format_02d_examples :
  format_02d 5 = "05"%string ∧ format_02d 56 = "56"%string ∧
  format_02d 100 = "100"%string ∧ format_02d (-5) = "-5"%string.
Proof. by vm_compute. Qed.

(** ** Date vectors *)

(** C1, evaluated on the documented date vector: the six components come
    back as given, yet the fraction 0.015 s is stored as 15 microseconds,
    so the timestamp is 21:48:39.000015 and not 21:48:39.015, whose
    microsecond field is 15000. *)
Theorem datevec_example_fraction :
  _datevec2datetime example_vec = Ok (mk_datetime 2008 5 22 21 48 39 15) ∧
  _datevec2datetime example_vec ≠ Ok (mk_datetime 2008 5 22 21 48 39 15000).
Proof. split; [by vm_compute | by vm_compute]. Qed.

Example datevec_five_components :
  _datevec2datetime [2008; 5; 22; 21; 48]%float = Raise IndexError.
Proof. by vm_compute. Qed.

(** For every date vector the conversion accepts, each of the six calendar
    fields is the integer part of its component, and the [microsecond]
    field is the integer part of a thousand times the fraction of the
    seconds. *)
Lemma datevec_fields (vec : list float) (d : datetime) :
  _datevec2datetime vec = Ok d →
  ∃ v0 v1 v2 v3 v4 v5,
    vec !! 0%nat = Some v0 ∧ int v0 = Ok (year d) ∧
    vec !! 1%nat = Some v1 ∧ int v1 = Ok (month d) ∧
    vec !! 2%nat = Some v2 ∧ int v2 = Ok (day d) ∧
    vec !! 3%nat = Some v3 ∧ int v3 = Ok (hour d) ∧
    vec !! 4%nat = Some v4 ∧ int v4 = Ok (minute d) ∧
    vec !! 5%nat = Some v5 ∧ int v5 = Ok (second d) ∧
    int ((v5 - float_of_int (second d)) * 1000)%float = Ok (microsecond d).
Proof.
  unfold _datevec2datetime. intros H.
  apply bind_Ok in H as (y & (v0 & H0%getitem_Ok & Hy)%bind_Ok & H).
  apply bind_Ok in H as (mo & (v1 & H1%getitem_Ok & Hmo)%bind_Ok & H).
  apply bind_Ok in H as (dd & (v2 & H2%getitem_Ok & Hd)%bind_Ok & H).
  apply bind_Ok in H as (h & (v3 & H3%getitem_Ok & Hh)%bind_Ok & H).
  apply bind_Ok in H as (mi & (v4 & H4%getitem_Ok & Hmi)%bind_Ok & H).
  apply bind_Ok in H as (s & (v5 & H5%getitem_Ok & Hs)%bind_Ok & H).
  apply bind_Ok in H as (us & Hus & H).
  apply bind_Ok in Hus as (v5' & H5'%getitem_Ok & Hus).
  apply bind_Ok in Hus as (v5'' & H5''%getitem_Ok & Hus).
  apply bind_Ok in Hus as (w & Hw & Hus).
  rewrite H5 in H5', H5''. injection H5' as <-. injection H5'' as <-.
  rewrite Hs in Hw. injection Hw as <-.
  unfold datetime_new in H. destruct (forallb _ _); [|done].
  destruct (_ && _); [|done]. injection H as <-.
  exists v0, v1, v2, v3, v4, v5. simpl. by repeat split.
Qed.

Lemma datevec_component (vec : list float) (k : nat) :
  Forall (λ v, is_Ok (int v)) vec →
  (k < length vec)%nat → is_Ok (getitem vec k ≫= int).
Proof.
  intros Hint Hk. destruct (lookup_lt_is_Some_2 vec k Hk) as [v Hv].
  rewrite Forall_forall in Hint.
  destruct (Hint v) as [z Hz]; [by eapply list_elem_of_lookup_2|].
  exists z. apply bind_Ok. exists v. by rewrite getitem_Ok.
Qed.

Lemma datevec_missing (vec : list float) (k : nat) :
  (length vec ≤ k)%nat → getitem vec k ≫= int = Raise IndexError.
Proof.
  intros Hk. assert (getitem vec k = Raise IndexError) as ->; [|done].
  by apply getitem_Raise.
Qed.

(** C9: a date vector with fewer than six components is refused: the
    conversion raises and returns no timestamp.  When the components that
    are there are finite numbers, the exception is the [IndexError] of the
    first missing component. *)
Theorem datevec_too_short (vec : list float) :
  (length vec < 6)%nat →
  raises (_datevec2datetime vec) ∧
  (Forall (λ v, is_Ok (int v)) vec → _datevec2datetime vec = Raise IndexError).
Proof.
  intros Hlen. split.
  - unfold _datevec2datetime.
    do 5 (apply bind_raises_r; intros ? _).
    apply bind_raises_l. rewrite datevec_missing by lia. by exists IndexError.
  - intros Hint. unfold _datevec2datetime.
    pose proof (datevec_component vec) as Hc.
    pose proof (datevec_missing vec) as Hm.
    destruct (decide (length vec ≤ 0)%nat); [by rewrite (Hm 0%nat)|].
    destruct (Hc 0%nat) as [? ->]; [done | lia|]. simpl.
    destruct (decide (length vec ≤ 1)%nat); [by rewrite (Hm 1%nat)|].
    destruct (Hc 1%nat) as [? ->]; [done | lia|]. simpl.
    destruct (decide (length vec ≤ 2)%nat); [by rewrite (Hm 2%nat)|].
    destruct (Hc 2%nat) as [? ->]; [done | lia|]. simpl.
    destruct (decide (length vec ≤ 3)%nat); [by rewrite (Hm 3%nat)|].
    destruct (Hc 3%nat) as [? ->]; [done | lia|]. simpl.
    destruct (decide (length vec ≤ 4)%nat); [by rewrite (Hm 4%nat)|].
    destruct (Hc 4%nat) as [? ->]; [done | lia|]. simpl.
    by rewrite (Hm 5%nat) by lia.
Qed.

Lemma datevec_too_short_witness :
  raises (_datevec2datetime [2008; 5; 22; 21; 48]%float) ∧
  (Forall (λ v, is_Ok (int v)) [2008; 5; 22; 21; 48]%float →
   _datevec2datetime [2008; 5; 22; 21; 48]%float = Raise IndexError).
Proof. apply datevec_too_short. simpl. lia. Defined.

(** ** The file path *)

(** C8 as stated fails from index 100 on: the index is written with all its
    digits, so the name of battery 100 carries three digits after [B00] and
    is no path of the two-digit form. *)
Lemma file_path_100_not_two_digits :
  file_path 100 = "./data/raw/B00100.mat"%string ∧
  ¬ ∃ d1 d2, is_digit d1 ∧ is_digit d2 ∧ file_path 100 = two_digit_path d1 d2.
Proof.
  split; [done|]. intros (d1 & d2 & _ & _ & H).
  apply (f_equal String.length) in H. vm_compute in H. discriminate.
Qed.

Lemma file_path_below_100 (n : nat) :
  (n < 100)%nat →
  file_path (Z.of_nat n)
  = two_digit_path (digit_char (Z.of_nat n / 10)) (digit_char (Z.of_nat n mod 10)).
Proof.
  intros Hn.
  assert (forallb (λ k, String.eqb
            (file_path (Z.of_nat k))
            (two_digit_path (digit_char (Z.of_nat k / 10))
                            (digit_char (Z.of_nat k mod 10))))
          (seq 0 100) = true) as Hall by (by vm_compute).
  rewrite forallb_forall in Hall.
  apply String.eqb_eq, Hall, in_seq. lia.
Qed.

(** C8, amended: for every battery index from 0 to 99 the path is the fixed
    directory, [B00], the index written with exactly two decimal digits
    (tens, then units) and the extension [.mat]; this is the path
    [read_nasa] hands to [loadmat], whose failure is the failure of
    [read_nasa]. *)
Theorem file_path_two_digits (i : Z) :
  0 ≤ i ≤ 99 →
  is_digit (digit_char (i / 10)) ∧ is_digit (digit_char (i mod 10)) ∧
  file_path i = two_digit_path (digit_char (i / 10)) (digit_char (i mod 10)) ∧
  ∀ loadmat e,
    loadmat (two_digit_path (digit_char (i / 10)) (digit_char (i mod 10))) = Raise e →
    read_nasa loadmat i = Raise e.
Proof.
  intros Hi.
  assert (file_path i
          = two_digit_path (digit_char (i / 10)) (digit_char (i mod 10))) as Hpath.
  { rewrite <- (Z2Nat.id i) by lia. apply file_path_below_100. lia. }
  split; [|split; [|split; [done|]]].
  - exists (i / 10). split; [|done]. Z.div_mod_to_equations. lia.
  - exists (i mod 10). split; [|done]. Z.div_mod_to_equations. lia.
  - intros loadmat e He. unfold read_nasa, load_cycles.
    rewrite Hpath, He. done.
Qed.

Lemma file_path_two_digits_witness :
  is_digit "0" ∧ is_digit "5" ∧ file_path 5 = "./data/raw/B0005.mat"%string ∧
  ∀ loadmat e,
    loadmat "./data/raw/B0005.mat"%string = Raise e → read_nasa loadmat 5 = Raise e.
Proof. apply (file_path_two_digits 5). lia. Defined.

(** ** Comprehensions *)

Lemma comprehension_Ok {A B} (f : A → result B) (l : list A) (ys : list B) :
  comprehension f l = Ok ys ↔ Forall2 (λ x y, f x = Ok y) l ys.
Proof.
  revert ys. induction l as [|x l IH]; intros ys; simpl.
  - split; [intros [= <-]; constructor | by inversion 1].
  - rewrite bind_Ok. split.
    + intros (y & Hy & H). apply bind_Ok in H as (ys' & Hys & [= <-]).
      constructor; [done | by apply IH].
    + inversion 1 as [|? y ? ys' Hy Hys]; subst. exists y. split; [done|].
      apply bind_Ok. exists ys'. split; [by apply IH | done].
Qed.

Lemma comprehension_raises {A B} (f : A → result B) (l : list A) (x : A) :
  x ∈ l → raises (f x) → raises (comprehension f l).
Proof.
  intros Hx Hf. induction l as [|y l IH]; [by apply elem_of_nil in Hx|].
  apply elem_of_cons in Hx as [-> | Hx]; simpl.
  - by apply bind_raises_l.
  - apply bind_raises_r. intros ? _. apply bind_raises_l. by apply IH.
Qed.

Lemma comprehension_Raise {A B} (f : A → result B) (l : list A) (e : exn) :
  comprehension f l = Raise e → ∃ x, x ∈ l ∧ f x = Raise e.
Proof.
  induction l as [|x l IH]; simpl; [discriminate|].
  destruct (f x) as [y|e'] eqn:Hx; simpl.
  - destruct (comprehension f l) as [ys|e'] eqn:Hl; simpl; [discriminate|].
    intros [= ->]. destruct IH as (x' & Hx' & H); [done|].
    exists x'. split; [by right | done].
  - intros [= ->]. exists x. split; [by left | done].
Qed.

Lemma Forall2_equiv {A B} (P Q : A → B → Prop) (l : list A) (k : list B) :
  (∀ x y, P x y ↔ Q x y) → Forall2 P l k ↔ Forall2 Q l k.
Proof.
  intros H. split; intros HF; eapply Forall2_impl; try done; intros x y; apply H.
Qed.

Lemma Forall_exists_Forall2 {A B} (P : A → B → Prop) (l : list A) :
  Forall (λ x, ∃ y, P x y) l → ∃ k, Forall2 P l k.
Proof.
  induction 1 as [|x l [y Hy] _ [k Hk]].
  - exists []. constructor.
  - exists (y :: k). by constructor.
Qed.

Lemma comprehension_is_Ok {A B} (f : A → result B) (l : list A) :
  Forall (λ x, is_Ok (f x)) l → is_Ok (comprehension f l).
Proof.
  intros H. destruct (Forall_exists_Forall2 (λ x y, f x = Ok y) l H) as [ys Hys].
  exists ys. by apply comprehension_Ok.
Qed.

Lemma struct_field_row {R A} (f : R → A) (a : list (list R)) (row : list R) :
  a !! 0%nat = Some row → getitem (struct_field f a) 0%nat = Ok (f <$> row).
Proof.
  intros H. apply getitem_Ok. unfold struct_field.
  by rewrite list_lookup_fmap, H.
Qed.

(** ** Metadata *)

Lemma _get_metadata_Ok (cycles : list (list cycle_rec)) (row : list cycle_rec)
    (meta : metadata) :
  cycles !! 0%nat = Some row →
  _get_metadata cycles = Ok meta ↔
    Forall2 cycle_type row (types meta) ∧
    Forall2 cycle_start row (start_times meta) ∧
    Forall2 cycle_ambient row (ambient_temps meta).
Proof.
  intros Hrow. unfold _get_metadata.
  rewrite !(struct_field_row _ _ _ Hrow). simpl.
  assert (∀ tys, comprehension (λ arr : list string, getitem arr 0%nat) (type_ <$> row)
                 = Ok tys ↔ Forall2 cycle_type row tys) as Hty.
  { intros tys. rewrite comprehension_Ok, Forall2_fmap_l.
    apply Forall2_equiv. intros c ty. apply getitem_Ok. }
  assert (∀ sts, comprehension
                   (λ arr : list (list float), getitem arr 0%nat ≫= _datevec2datetime)
                   (time <$> row)
                 = Ok sts ↔ Forall2 cycle_start row sts) as Hst.
  { intros sts. rewrite comprehension_Ok, Forall2_fmap_l.
    apply Forall2_equiv. intros c st. simpl. rewrite bind_Ok. unfold cycle_start.
    by setoid_rewrite getitem_Ok. }
  assert (∀ ats, comprehension
                   (λ arr : list (list float), r ← getitem arr 0%nat; getitem r 0%nat)
                   (ambient_temperature <$> row)
                 = Ok ats ↔ Forall2 cycle_ambient row ats) as Hat.
  { intros ats. rewrite comprehension_Ok, Forall2_fmap_l.
    apply Forall2_equiv. intros c a. simpl. rewrite bind_Ok. unfold cycle_ambient.
    by setoid_rewrite getitem_Ok. }
  rewrite bind_Ok. split.
  - intros (tys & Htys & H). apply bind_Ok in H as (sts & Hsts & H).
    apply bind_Ok in H as (ats & Hats & [= <-]). simpl.
    by rewrite <- Hty, <- Hst, <- Hat.
  - destruct meta as [tys sts ats]. simpl. intros (Htys & Hsts & Hats).
    exists tys. split; [by apply Hty|].
    apply bind_Ok. exists sts. split; [by apply Hst|].
    apply bind_Ok. exists ats. split; [by apply Hat | done].
Qed.

(** C7: on a cycle list whose records all carry a type tag, a convertible
    date vector and an ambient temperature, [_get_metadata] returns; and
    whenever it returns, each of the three sequences is as long as the
    cycle list, and at every index [i] they hold the type tag, the
    converted date vector and the ambient temperature of cycle [i]. *)
Theorem get_metadata_parallel (cycles : list (list cycle_rec)) (row : list cycle_rec) :
  cycles !! 0%nat = Some row →
  (Forall (λ c, (∃ ty, cycle_type c ty) ∧ (∃ st, cycle_start c st)
                ∧ (∃ at_, cycle_ambient c at_)) row →
   is_Ok (_get_metadata cycles)) ∧
  ∀ meta, _get_metadata cycles = Ok meta →
    length (types meta) = length row ∧
    length (start_times meta) = length row ∧
    length (ambient_temps meta) = length row ∧
    ∀ i c, row !! i = Some c →
      ∃ ty st at_,
        types meta !! i = Some ty ∧ cycle_type c ty ∧
        start_times meta !! i = Some st ∧ cycle_start c st ∧
        ambient_temps meta !! i = Some at_ ∧ cycle_ambient c at_.
Proof.
  intros Hrow. split.
  - intros Hwf.
    assert (∃ tys, Forall2 cycle_type row tys) as [tys Htys].
    { apply Forall_exists_Forall2. eapply Forall_impl; [done|].
      by intros c (? & ? & ?). }
    assert (∃ sts, Forall2 cycle_start row sts) as [sts Hsts].
    { apply Forall_exists_Forall2. eapply Forall_impl; [done|].
      by intros c (? & ? & ?). }
    assert (∃ ats, Forall2 cycle_ambient row ats) as [ats Hats].
    { apply Forall_exists_Forall2. eapply Forall_impl; [done|].
      by intros c (? & ? & ?). }
    exists (mk_meta tys sts ats). by apply (_get_metadata_Ok _ row).
  - intros meta Hmeta.
    apply (_get_metadata_Ok _ row) in Hmeta as (Htys & Hsts & Hats); [|done].
    repeat split; try (symmetry; by eapply Forall2_length).
    intros i c Hc.
    destruct (Forall2_lookup_l _ _ _ _ _ Htys Hc) as (ty & ? & ?).
    destruct (Forall2_lookup_l _ _ _ _ _ Hsts Hc) as (st & ? & ?).
    destruct (Forall2_lookup_l _ _ _ _ _ Hats Hc) as (at_ & ? & ?).
    by exists ty, st, at_.
Qed.

(** ** The schema table *)

Lemma DATA_FIELDS_None (ty : string) :
  ty ≠ "charge"%string → ty ≠ "discharge"%string → ty ≠ "impedance"%string →
  DATA_FIELDS !! ty = None.
Proof.
  intros H1 H2 H3. unfold DATA_FIELDS. simpl.
  rewrite lookup_insert_ne by done. rewrite lookup_insert_ne by done.
  rewrite lookup_insert_ne by done. apply lookup_empty.
Qed.

Lemma DATA_FIELDS_Some (ty : string) (fields : list string) :
  DATA_FIELDS !! ty = Some fields →
  NoDup fields ∧ fields ≠ [] ∧
  ("type"%string ∉ fields) ∧ ("start_time"%string ∉ fields) ∧
  ("ambient_temp"%string ∉ fields).
Proof.
  destruct (decide (ty = "charge"%string)) as [->|H1];
    [|destruct (decide (ty = "discharge"%string)) as [->|H2];
      [|destruct (decide (ty = "impedance"%string)) as [->|H3]]].
  4: by rewrite DATA_FIELDS_None.
  all: intros H; vm_compute in H; injection H as <-;
    (split; [compute_done|]);
    (split; [done|]);
    (split; [|split]); compute_done.
Qed.

(** ** The dict of a cycle *)

Lemma enumerate_from_Forall2 {A B} (P : nat → A → B → Prop) (k : nat)
    (l : list A) (d : list B) :
  Forall2 (λ jx y, P jx.1 jx.2 y) (enumerate_from k l) d ↔
  length d = length l ∧ ∀ j x y, l !! j = Some x → d !! j = Some y → P (k + j)%nat x y.
Proof.
  revert k d. induction l as [|x l IH]; intros k d; simpl.
  - split.
    + inversion 1. split; [done|]. intros j ???. by rewrite lookup_nil.
    + intros [Hd _]. destruct d; [constructor | done].
  - split.
    + inversion 1 as [|?? y d' Hy Hd]; subst. apply IH in Hd as [Hlen Hd].
      split; [simpl; by f_equal|]. intros [|j] x' y'; simpl.
      * intros [= <-] [= <-]. by rewrite Nat.add_0_r.
      * intros Hx' Hy'. replace (k + S j)%nat with (S k + j)%nat by lia.
        by apply (Hd j).
    + intros [Hlen Hd]. destruct d as [|y d]; [done|]. constructor.
      * simpl. rewrite <- (Nat.add_0_r k). by apply (Hd 0%nat).
      * apply IH. split; [simpl in Hlen; lia|]. intros j x' y' Hx' Hy'.
        replace (S k + j)%nat with (k + S j)%nat by lia. by apply (Hd (S j)).
Qed.

Lemma cycle_dict_Ok (cycle_data : list (list data_rec)) (fields : list string)
    (d : list (string * list float)) :
  comprehension (λ jf : nat * string, data ← extract cycle_data jf.1; Ok (jf.2, data))
                (enumerate fields) = Ok d ↔
  d.*1 = fields ∧ extracted cycle_data fields d.*2.
Proof.
  rewrite comprehension_Ok. unfold enumerate, extracted.
  rewrite (enumerate_from_Forall2
             (λ j name kv, (data ← extract cycle_data j; Ok (name, data)) = Ok kv)).
  rewrite length_fmap. split.
  - intros [Hlen H]. split; [|split; [done|]].
    + apply list_eq. intros j. rewrite list_lookup_fmap.
      destruct (d !! j) as [kv|] eqn:Hkv, (fields !! j) as [name|] eqn:Hname; simpl.
      * specialize (H j name kv Hname Hkv). simpl in H.
        apply bind_Ok in H as (s & _ & [= <-]). done.
      * apply lookup_lt_Some in Hkv. apply lookup_ge_None in Hname. lia.
      * apply lookup_lt_Some in Hname. apply lookup_ge_None in Hkv. lia.
      * done.
    + intros j s. rewrite list_lookup_fmap.
      destruct (d !! j) as [kv|] eqn:Hkv; simpl; [|done]. intros [= <-].
      destruct (lookup_lt_is_Some_2 fields j) as [name Hname].
      { apply lookup_lt_Some in Hkv. lia. }
      specialize (H j name kv Hname Hkv). simpl in H.
      apply bind_Ok in H as (s & Hs & [= <-]). done.
  - intros (Hkeys & Hlen & H). split; [done|]. intros j name kv Hname Hkv. simpl.
    apply bind_Ok. exists kv.2. split.
    + apply H. by rewrite list_lookup_fmap, Hkv.
    + f_equal. destruct kv as [k s]. simpl. f_equal.
      assert (d.*1 !! j = Some k) as Hk by by rewrite list_lookup_fmap, Hkv.
      rewrite Hkeys, Hname in Hk. by injection Hk.
Qed.

(** ** Frames *)

Lemma assoc_set_fresh {V} (k : string) (v : V) (l : list (string * V)) :
  k ∉ l.*1 → assoc_set k v l = l ++ [(k, v)].
Proof.
  induction l as [|[k' v'] l IH]; simpl; [done|].
  rewrite not_elem_of_cons. intros [Hne Hk].
  destruct (decide (k = k')); [done|]. by rewrite IH.
Qed.

Lemma assoc_app_l {V} (k : string) (l1 l2 : list (string * V)) :
  k ∈ l1.*1 → assoc k (l1 ++ l2) = assoc k l1.
Proof.
  induction l1 as [|[k' v'] l1 IH]; simpl; [by rewrite elem_of_nil|].
  rewrite elem_of_cons. intros Hk. destruct (decide (k = k')); [done|].
  apply IH. by destruct Hk.
Qed.

Lemma assoc_app_r {V} (k : string) (l1 l2 : list (string * V)) :
  k ∉ l1.*1 → assoc k (l1 ++ l2) = assoc k l2.
Proof.
  induction l1 as [|[k' v'] l1 IH]; simpl; [done|].
  rewrite not_elem_of_cons. intros [Hne Hk]. destruct (decide (k = k')); [done|].
  by apply IH.
Qed.

Lemma assoc_zip_lookup {V} (keys : list string) (vals : list V) (j : nat)
    (k : string) (v : V) :
  NoDup keys → keys !! j = Some k → vals !! j = Some v →
  assoc k (zip keys vals) = Some v.
Proof.
  intros Hnd. revert vals j. induction Hnd as [|k' keys Hk' Hnd IH]; intros vals j.
  - by rewrite lookup_nil.
  - destruct vals as [|v' vals]; [by rewrite lookup_nil|].
    destruct j as [|j]; simpl.
    + intros [= ->] [= ->]. by rewrite decide_True.
    + intros Hk Hv. rewrite decide_False.
      * by apply (IH vals j).
      * intros ->. apply Hk'. by eapply list_elem_of_lookup_2.
Qed.

Lemma assoc_fmap_key {V} (g : string → V) (names : list string) (k : string) :
  k ∈ names → assoc k ((λ name, (name, g name)) <$> names) = Some (g k).
Proof.
  induction names as [|k' names IH]; simpl; [by rewrite elem_of_nil|].
  rewrite elem_of_cons. intros Hk. destruct (decide (k = k')) as [->|]; [done|].
  apply IH. by destruct Hk.
Qed.

Lemma array_lengths_unwrap (d : list (string * list float)) :
  array_lengths (prod_map id unwrap_single <$> d)
  = filter (λ m, m ≠ 1%nat) (length <$> d.*2).
Proof.
  induction d as [|[k s] d IH]; [done|].
  rewrite !fmap_cons, filter_cons. unfold array_lengths in *.
  destruct s as [|x [|y s]]; cbn; rewrite IH; [done..|].
  by rewrite length_fmap.
Qed.

Lemma unwrap_columns (n : nat) (d : list (string * list float)) :
  prod_map id (broadcast n) <$> (prod_map id unwrap_single <$> d)
  = zip d.*1 ((λ s, broadcast n (unwrap_single s)) <$> d.*2).
Proof.
  induction d as [|[k s] d IH]; [done|].
  rewrite !fmap_cons. cbn [zip zip_with]. by rewrite <- IH.
Qed.

Lemma DataFrame_of_dict_Ok (d : list (string * value)) (df : DataFrame) :
  d ≠ [] →
  DataFrame_of_dict d = Ok df ↔
  ∃ n, array_lengths d ≠ [] ∧ Forall (eq n) (array_lengths d) ∧
       df = mk_frame (RangeIndex n) (prod_map id (broadcast n) <$> d).
Proof.
  intros Hd. unfold DataFrame_of_dict. destruct d as [|kv d]; [done|].
  destruct (array_lengths (kv :: d)) as [|n ns].
  - split; [done | by intros (n & ? & _)].
  - destruct (forallb (Nat.eqb n) ns) eqn:Hall.
    + assert (Forall (eq n) ns) as Hns.
      { apply Forall_forall. intros m Hm. rewrite forallb_forall in Hall.
        apply Nat.eqb_eq, Hall. by apply list_elem_of_In. }
      split.
      * intros [= <-]. exists n. split; [done|]. split; [by constructor | done].
      * intros (n' & _ & Hn' & ->). apply Forall_cons in Hn' as [<- _]. done.
    + split; [done|]. intros (n' & _ & Hn' & _).
      apply Forall_cons in Hn' as [-> Hns].
      assert (forallb (Nat.eqb n) ns = true) as Ht; [|congruence].
      apply forallb_forall. intros m Hm. apply Nat.eqb_eq.
      rewrite Forall_forall in Hns. by apply Hns, list_elem_of_In.
Qed.

Lemma DataFrame_of_dict_scalars (d : list (string * value)) :
  d ≠ [] → array_lengths d = [] → DataFrame_of_dict d = Raise ValueError.
Proof. intros Hd Hlen. unfold DataFrame_of_dict. destruct d; [done|]. by rewrite Hlen. Qed.

(** ** The frame of one cycle *)

Lemma common_length_filter (seqs : list (list float)) (n : nat) :
  common_length seqs n ↔
  filter (λ m, m ≠ 1%nat) (length <$> seqs) ≠ [] ∧
  Forall (eq n) (filter (λ m, m ≠ 1%nat) (length <$> seqs)).
Proof.
  unfold common_length. rewrite Forall_forall. split.
  - intros [(s & Hs & Hne) Hall]. split.
    + intros Hnil. eapply (filter_nil_not_elem_of _ _ (length s)); [done..|].
      apply list_elem_of_fmap. by exists s.
    + intros m [Hm (s' & -> & Hs')%list_elem_of_fmap]%list_elem_of_filter.
      symmetry. by apply Hall.
  - intros [Hne Hall]. split.
    + destruct (filter _ _) as [|m ms] eqn:Hf; [done|].
      assert (m ∈ filter (λ m, m ≠ 1%nat) (length <$> seqs)) as Hm
        by (rewrite Hf; left).
      apply list_elem_of_filter in Hm as [Hm (s & -> & Hs)%list_elem_of_fmap].
      by exists s.
    + intros s Hs Hlen. symmetry. apply Hall, list_elem_of_filter.
      split; [done|]. apply list_elem_of_fmap. by exists s.
Qed.

Lemma setitem_meta (n : nat) (cols : list (string * list cell))
    (ty : string) (st : datetime) (at_ : float) :
  ("type"%string ∉ cols.*1) → ("start_time"%string ∉ cols.*1) →
  ("ambient_temp"%string ∉ cols.*1) →
  setitem (setitem (setitem (mk_frame (RangeIndex n) cols) "type" (CStr ty))
                   "start_time" (CTime st))
          "ambient_temp" (CFloat at_)
  = mk_frame (RangeIndex n) (cols ++ meta_columns n ty st at_).
Proof.
  intros H1 H2 H3. unfold setitem, nrows, RangeIndex. simpl. rewrite !length_seq.
  rewrite (assoc_set_fresh "type") by done.
  rewrite (assoc_set_fresh "start_time").
  2: { rewrite fmap_app, elem_of_app. simpl. rewrite list_elem_of_singleton.
       by intros [?|?]. }
  rewrite (assoc_set_fresh "ambient_temp").
  2: { rewrite !fmap_app, !elem_of_app. simpl. rewrite !list_elem_of_singleton.
       by intros [[?|?]|?]. }
  by rewrite <- !app_assoc.
Qed.

(** [_cycle2df] returns a frame exactly when the metadata of cycle [i] is
    there, its type has a schema, every field of the schema can be
    extracted, and the extracted sequences agree on a row count; the frame
    is then [cycle_frame]. *)
Lemma _cycle2df_Ok (cycle_data : list (list data_rec)) (meta : metadata) (i : nat)
    (df : DataFrame) :
  _cycle2df cycle_data meta i = Ok df ↔
  ∃ ty st at_ fields seqs n,
    _get_metadata_at meta i = Ok (ty, st, at_) ∧
    DATA_FIELDS !! ty = Some fields ∧
    extracted cycle_data fields seqs ∧
    common_length seqs n ∧
    df = cycle_frame n fields seqs ty st at_.
Proof.
  unfold _cycle2df. rewrite bind_Ok. split.
  - intros ([[ty st] at_] & Hmeta & H).
    apply bind_Ok in H as (fields & Hfields & H).
    apply bind_Ok in H as (d & Hd & H). apply bind_Ok in H as (df0 & Hdf0 & [= <-]).
    unfold dict_get in Hfields.
    destruct (DATA_FIELDS !! ty) as [fields'|] eqn:Hty; [|done].
    injection Hfields as ->.
    destruct (DATA_FIELDS_Some _ _ Hty) as (Hnd & Hne & H1 & H2 & H3).
    apply cycle_dict_Ok in Hd as [Hkeys Hseqs].
    apply DataFrame_of_dict_Ok in Hdf0 as (n & Hlen & Hall & ->).
    2: { destruct d; [by subst fields | done]. }
    rewrite array_lengths_unwrap in Hlen, Hall.
    exists ty, st, at_, fields, d.*2, n.
    split; [done|]. split; [done|]. split; [done|].
    split; [by apply common_length_filter|].
    rewrite unwrap_columns, Hkeys. unfold cycle_frame, field_column.
    apply setitem_meta; rewrite fst_zip; try done;
      rewrite length_fmap; destruct Hseqs as [-> _]; done.
  - intros (ty & st & at_ & fields & seqs & n & Hmeta & Hty & Hseqs & Hn & ->).
    exists (ty, st, at_). split; [done|].
    destruct (DATA_FIELDS_Some _ _ Hty) as (Hnd & Hne & H1 & H2 & H3).
    apply bind_Ok. exists fields. split; [unfold dict_get; by rewrite Hty|].
    assert (length seqs = length fields) as Hlen by apply Hseqs.
    assert ((zip fields seqs).*1 = fields) as Hk by (apply fst_zip; lia).
    assert ((zip fields seqs).*2 = seqs) as Hv by (apply snd_zip; lia).
    apply bind_Ok. exists (zip fields seqs). split.
    { apply cycle_dict_Ok. by rewrite Hk, Hv. }
    apply common_length_filter in Hn as [Hn1 Hn2].
    apply bind_Ok. eexists. split.
    { apply DataFrame_of_dict_Ok.
      - destruct fields, seqs; done.
      - exists n. rewrite array_lengths_unwrap, Hv. done. }
    f_equal. rewrite unwrap_columns, Hk, Hv. unfold cycle_frame, field_column.
    apply setitem_meta; rewrite fst_zip; try done; rewrite length_fmap; lia.
Qed.

Lemma _get_metadata_at_Ok (meta : metadata) (i : nat) (ty : string)
    (st : datetime) (at_ : float) :
  _get_metadata_at meta i = Ok (ty, st, at_) ↔
  types meta !! i = Some ty ∧ start_times meta !! i = Some st ∧
  ambient_temps meta !! i = Some at_.
Proof.
  unfold _get_metadata_at. rewrite <- !getitem_Ok.
  destruct (getitem (types meta) i) as [ty'|]; simpl; [|by split; [|intros [? _]]].
  destruct (getitem (start_times meta) i) as [st'|]; simpl;
    [|by split; [|intros (_ & ? & _)]].
  destruct (getitem (ambient_temps meta) i) as [at'|]; simpl;
    [|by split; [|intros (_ & _ & ?)]].
  split; [by intros [= -> -> ->] | by intros ([= ->] & [= ->] & [= ->])].
Qed.

Lemma cycle_frame_nrows n fields seqs ty st at_ :
  nrows (cycle_frame n fields seqs ty st at_) = n.
Proof. unfold nrows, cycle_frame, RangeIndex. simpl. apply length_seq. Qed.

Lemma cycle_frame_meta_column n fields seqs ty st at_ :
  length seqs = length fields →
  ("type"%string ∉ fields) → ("start_time"%string ∉ fields) →
  ("ambient_temp"%string ∉ fields) →
  let df := cycle_frame n fields seqs ty st at_ in
  column df "type" = Some (replicate n (CStr ty)) ∧
  column df "start_time" = Some (replicate n (CTime st)) ∧
  column df "ambient_temp" = Some (replicate n (CFloat at_)).
Proof.
  intros Hlen H1 H2 H3. unfold column, cycle_frame. simpl.
  rewrite !assoc_app_r by (rewrite fst_zip; [done | rewrite length_fmap; lia]).
  done.
Qed.

Lemma cycle_frame_field_column n fields seqs ty st at_ j name s :
  NoDup fields → fields !! j = Some name → seqs !! j = Some s →
  column (cycle_frame n fields seqs ty st at_) name = Some (field_column n s).
Proof.
  intros Hnd Hname Hs. unfold column, cycle_frame. simpl.
  assert (assoc name (zip fields (field_column n <$> seqs)) = Some (field_column n s))
    as Hassoc.
  { apply (assoc_zip_lookup _ _ j); [done..|]. by rewrite list_lookup_fmap, Hs. }
  rewrite assoc_app_l; [done|].
  apply list_elem_of_fmap. exists (name, field_column n s). split; [done|].
  apply list_elem_of_lookup. exists j. apply lookup_zip_with_Some.
  exists name, (field_column n s). by rewrite list_lookup_fmap, Hs.
Qed.

Lemma example_discharge_frame :
  _cycle2df example_discharge example_meta 0 = Ok example_frame.
Proof. by vm_compute. Qed.

(** ** Metadata columns *)

(** C5: in the frame [_cycle2df] returns for cycle [i], the columns [type],
    [start_time] and [ambient_temp] hold on every row the values
    [types[i]], [start_times[i]] and [ambient_temps[i]]. *)
Theorem cycle_frame_metadata (cycle_data : list (list data_rec)) (meta : metadata)
    (i : nat) (df : DataFrame) :
  _cycle2df cycle_data meta i = Ok df →
  ∃ ty st at_,
    types meta !! i = Some ty ∧ start_times meta !! i = Some st ∧
    ambient_temps meta !! i = Some at_ ∧
    ∀ r, (r < nrows df)%nat →
      at_row df r "type" = Some (CStr ty) ∧
      at_row df r "start_time" = Some (CTime st) ∧
      at_row df r "ambient_temp" = Some (CFloat at_).
Proof.
  intros H. apply _cycle2df_Ok in H
    as (ty & st & at_ & fields & seqs & n & Hmeta & Hty & Hseqs & Hn & ->).
  apply _get_metadata_at_Ok in Hmeta as (Hi1 & Hi2 & Hi3).
  exists ty, st, at_. split; [done|]. split; [done|]. split; [done|].
  rewrite cycle_frame_nrows. intros r Hr.
  destruct (DATA_FIELDS_Some _ _ Hty) as (_ & _ & H1 & H2 & H3).
  destruct (cycle_frame_meta_column n fields seqs ty st at_) as (Hc1 & Hc2 & Hc3);
    [apply Hseqs | done..|].
  unfold at_row. rewrite Hc1, Hc2, Hc3. simpl.
  by rewrite !lookup_replicate_2.
Qed.

Lemma cycle_frame_metadata_witness :
  ∃ ty st at_,
    types example_meta !! 0%nat = Some ty ∧
    start_times example_meta !! 0%nat = Some st ∧
    ambient_temps example_meta !! 0%nat = Some at_ ∧
    ∀ r, (r < nrows example_frame)%nat →
      at_row example_frame r "type" = Some (CStr ty) ∧
      at_row example_frame r "start_time" = Some (CTime st) ∧
      at_row example_frame r "ambient_temp" = Some (CFloat at_).
Proof.
  apply (cycle_frame_metadata example_discharge example_meta 0 example_frame).
  by vm_compute.
Defined.

(** ** Row count and broadcast *)

Lemma extracted_of_dict cycle_data fields (d : list (string * list float)) :
  comprehension (λ jf : nat * string, data ← extract cycle_data jf.1; Ok (jf.2, data))
                (enumerate fields) = Ok d →
  extracted cycle_data fields d.*2.
Proof. intros H. by apply cycle_dict_Ok in H as [_ ?]. Qed.

Lemma example_discharge_extracted :
  extracted example_discharge discharge_fields example_sequences.
Proof.
  apply (extracted_of_dict _ _ (zip discharge_fields example_sequences)).
  by vm_compute.
Qed.

(** C2 as stated fails where two fields of more than one sample differ in
    length: the sequences are not all of length 1 and the longest has 3
    elements, yet the table constructor refuses them and [_cycle2df]
    returns no table, of 3 rows or any other. *)
Lemma ragged_cycle_no_table :
  extract ragged_charge 0 = Ok [1; 2]%float ∧
  extract ragged_charge 1 = Ok [3; 4; 5]%float ∧
  _cycle2df ragged_charge ragged_meta 0 = Raise ValueError ∧
  ¬ ∃ df, _cycle2df ragged_charge ragged_meta 0 = Ok df ∧ nrows df = 3%nat.
Proof.
  assert (_cycle2df ragged_charge ragged_meta 0 = Raise ValueError) as H
    by (by vm_compute).
  repeat split; try done. intros (df & Hdf & _). by rewrite H in Hdf.
Qed.

(** C2, amended: when the field sequences of a cycle that do not have
    exactly one element all have the same length [n], and there is such a
    sequence, [_cycle2df] returns a table of [n] rows; a field whose
    sequence has exactly one element holds that element on every row, and
    every other field holds its sequence. *)
Theorem cycle_frame_rows (cycle_data : list (list data_rec)) (meta : metadata)
    (i : nat) (ty : string) (st : datetime) (at_ : float)
    (fields : list string) (seqs : list (list float)) (n : nat) :
  _get_metadata_at meta i = Ok (ty, st, at_) →
  DATA_FIELDS !! ty = Some fields →
  extracted cycle_data fields seqs →
  common_length seqs n →
  ∃ df, _cycle2df cycle_data meta i = Ok df ∧ nrows df = n ∧
    (∀ j name x, fields !! j = Some name → seqs !! j = Some [x] →
       ∀ r, (r < n)%nat → at_row df r name = Some (CFloat x)) ∧
    (∀ j name s, fields !! j = Some name → seqs !! j = Some s →
       length s ≠ 1%nat → column df name = Some (CFloat <$> s)).
Proof.
  intros Hmeta Hty Hseqs Hn.
  exists (cycle_frame n fields seqs ty st at_). split.
  { apply _cycle2df_Ok. by exists ty, st, at_, fields, seqs, n. }
  destruct (DATA_FIELDS_Some _ _ Hty) as (Hnd & _).
  split; [apply cycle_frame_nrows|]. split.
  - intros j name x Hname Hx r Hr. unfold at_row.
    rewrite (cycle_frame_field_column _ _ _ _ _ _ j name [x]) by done.
    simpl. by apply lookup_replicate_2.
  - intros j name s Hname Hs Hlen.
    rewrite (cycle_frame_field_column _ _ _ _ _ _ j name s) by done.
    by destruct s as [|x [|y s]].
Qed.

Lemma cycle_frame_rows_witness :
  ∃ df, _cycle2df example_discharge example_meta 0 = Ok df ∧ nrows df = 2%nat ∧
    (∀ j name x, discharge_fields !! j = Some name →
       example_sequences !! j = Some [x] →
       ∀ r, (r < 2)%nat → at_row df r name = Some (CFloat x)) ∧
    (∀ j name s, discharge_fields !! j = Some name →
       example_sequences !! j = Some s →
       length s ≠ 1%nat → column df name = Some (CFloat <$> s)).
Proof.
  apply (cycle_frame_rows example_discharge example_meta 0
           "discharge" example_start 24).
  - reflexivity.
  - by vm_compute.
  - apply example_discharge_extracted.
  - apply common_length_filter. split; [by vm_compute|].
    vm_compute. repeat constructor.
Defined.

(** The discharge cycle of two samples: two rows, and the capacity 2.1 on
    both. *)
Example example_discharge_capacity :
  ∃ df, _cycle2df example_discharge example_meta 0 = Ok df ∧ nrows df = 2%nat ∧
    at_row df 0 "Capacity" = Some (CFloat 2.1) ∧
    at_row df 1 "Capacity" = Some (CFloat 2.1) ∧
    at_row df 2 "Capacity" = None.
Proof. exists example_frame. by vm_compute. Qed.

(** ** The whole-file transform *)

Lemma _get_metadata_at_cycle (cycles : list (list cycle_rec)) (row : list cycle_rec)
    (meta : metadata) (i : nat) (c : cycle_rec) :
  cycles !! 0%nat = Some row → _get_metadata cycles = Ok meta → row !! i = Some c →
  ∃ ty st at_, _get_metadata_at meta i = Ok (ty, st, at_) ∧
               cycle_type c ty ∧ cycle_start c st ∧ cycle_ambient c at_.
Proof.
  intros Hrow Hmeta Hc.
  apply (_get_metadata_Ok _ row) in Hmeta as (Htys & Hsts & Hats); [|done].
  destruct (Forall2_lookup_l _ _ _ _ _ Htys Hc) as (ty & ? & ?).
  destruct (Forall2_lookup_l _ _ _ _ _ Hsts Hc) as (st & ? & ?).
  destruct (Forall2_lookup_l _ _ _ _ _ Hats Hc) as (at_ & ? & ?).
  exists ty, st, at_. split; [by apply _get_metadata_at_Ok | done].
Qed.

Section WholeFile.

Variable loadmat : string → result (gmap string (list (list top_rec))).

Lemma cycle_frames_Ok (cycles : list (list cycle_rec)) (row : list cycle_rec)
    (meta : metadata) (dfs : list DataFrame) :
  cycles !! 0%nat = Some row →
  cycle_frames cycles meta = Ok dfs ↔
  length dfs = length row ∧
  ∀ i c df, row !! i = Some c → dfs !! i = Some df →
            _cycle2df (data c) meta i = Ok df.
Proof.
  intros Hrow. unfold cycle_frames.
  rewrite (struct_field_row _ _ _ Hrow). simpl.
  rewrite comprehension_Ok, length_fmap.
  rewrite Forall2_same_length_lookup, length_seq. split.
  - intros [Hlen H]. split; [done|]. intros i c df Hc Hdf.
    assert (i < length row)%nat as Hi by by eapply lookup_lt_Some.
    specialize (H i i df (lookup_seq_lt 0 _ _ Hi) Hdf).
    assert (getitem (data <$> row) i = Ok (data c)) as Hget.
    { apply getitem_Ok. by rewrite list_lookup_fmap, Hc. }
    by rewrite Hget in H.
  - intros [Hlen H]. split; [done|]. intros i x df [-> Hi]%lookup_seq Hdf.
    destruct (lookup_lt_is_Some_2 row i Hi) as [c Hc]. simpl.
    assert (getitem (data <$> row) i = Ok (data c)) as ->.
    { apply getitem_Ok. by rewrite list_lookup_fmap, Hc. }
    by apply (H i c df).
Qed.

(** A cycle whose flattening raises keeps [read_nasa] from returning. *)
Lemma read_nasa_raises (b : Z) (cycles : list (list cycle_rec))
    (row : list cycle_rec) (i : nat) (c : cycle_rec) :
  load_cycles loadmat b = Ok cycles → cycles !! 0%nat = Some row →
  row !! i = Some c →
  (∀ meta ty st at_, _get_metadata_at meta i = Ok (ty, st, at_) →
                     cycle_type c ty → raises (_cycle2df (data c) meta i)) →
  raises (read_nasa loadmat b).
Proof.
  intros Hload Hrow Hc Hbad. unfold read_nasa. rewrite Hload. simpl.
  apply bind_raises_r. intros meta Hmeta. apply bind_raises_l.
  apply raises_not_Ok. intros dfs Hdfs.
  apply (cycle_frames_Ok _ row) in Hdfs as [Hlen Hdfs]; [|done].
  destruct (lookup_lt_is_Some_2 dfs i) as [df Hdf].
  { rewrite Hlen. by eapply lookup_lt_Some. }
  destruct (_get_metadata_at_cycle _ _ _ _ _ Hrow Hmeta Hc)
    as (ty & st & at_ & Hat & Hty & _).
  destruct (Hbad meta ty st at_ Hat Hty) as [e He].
  rewrite (Hdfs i c df Hc Hdf) in He. discriminate.
Qed.

(** [read_nasa] returns a table for a file that loads, has at least one
    cycle, and whose cycles all have metadata and a frame. *)
Lemma read_nasa_returns (b : Z) (cycles : list (list cycle_rec))
    (row : list cycle_rec) (meta : metadata) :
  load_cycles loadmat b = Ok cycles → cycles !! 0%nat = Some row → row ≠ [] →
  _get_metadata cycles = Ok meta →
  (∀ i c, row !! i = Some c → is_Ok (_cycle2df (data c) meta i)) →
  is_Ok (read_nasa loadmat b).
Proof.
  intros Hload Hrow Hne Hmeta Hall. unfold read_nasa.
  rewrite Hload. simpl. rewrite Hmeta. simpl.
  assert (is_Ok (cycle_frames cycles meta)) as [dfs Hdfs].
  { unfold cycle_frames. rewrite (struct_field_row _ _ _ Hrow). simpl.
    apply comprehension_is_Ok, Forall_forall.
    intros i [_ Hi]%elem_of_seq. rewrite length_fmap in Hi.
    destruct (lookup_lt_is_Some_2 row i) as [c Hc]; [lia|].
    assert (getitem (data <$> row) i = Ok (data c)) as ->.
    { apply getitem_Ok. by rewrite list_lookup_fmap, Hc. }
    simpl. by apply (Hall i c). }
  rewrite Hdfs. simpl.
  apply (cycle_frames_Ok _ row) in Hdfs as [Hlen _]; [|done].
  destruct dfs as [|df0 dfs]; [by destruct row|]. by eexists.
Qed.

End WholeFile.

Lemma getitem_Raise_IndexError {A} (a : list A) (i : nat) (e : exn) :
  getitem a i = Raise e → e = IndexError.
Proof. intros H. by apply getitem_Raise in H as [_ ?]. Qed.

Lemma bind_Raise {A B} (m : result A) (f : A → result B) (e : exn) :
  m ≫= f = Raise e → m = Raise e ∨ ∃ a, m = Ok a ∧ f a = Raise e.
Proof.
  destruct m as [a|e']; simpl; intros H.
  - right. exists a. by split.
  - left. by injection H as ->.
Qed.

Lemma extract_Raise (cycle_data : list (list data_rec)) (j : nat) (e : exn) :
  extract cycle_data j = Raise e → e = IndexError.
Proof.
  unfold extract. intros H.
  apply bind_Raise in H as [H|(a & _ & H)]; [by eapply getitem_Raise_IndexError|].
  apply bind_Raise in H as [H|(r & _ & H)]; [by eapply getitem_Raise_IndexError|].
  apply bind_Raise in H as [H|(f & _ & H)]; [by eapply getitem_Raise_IndexError|].
  by eapply getitem_Raise_IndexError.
Qed.

Lemma extract_Ok (cycle_data : list (list data_rec)) (j : nat) (s : list float) :
  extract cycle_data j = Ok s ↔
  ∃ a r f, cycle_data !! 0%nat = Some a ∧ a !! 0%nat = Some r ∧
           r !! j = Some f ∧ f !! 0%nat = Some s.
Proof.
  unfold extract. rewrite bind_Ok. setoid_rewrite bind_Ok.
  setoid_rewrite bind_Ok. setoid_rewrite getitem_Ok. split.
  - intros (a & Ha & r & Hr & f & Hf & Hs). by exists a, r, f.
  - intros (a & r & f & Ha & Hr & Hf & Hs).
    exists a. split; [done|]. exists r. split; [done|]. by exists f.
Qed.


Lemma missing_field_IndexError (cycle_data : list (list data_rec)) (meta : metadata)
    (i : nat) (ty : string) (st : datetime) (at_ : float) (fields : list string)
    (a : list data_rec) (r : data_rec) :
  _get_metadata_at meta i = Ok (ty, st, at_) →
  DATA_FIELDS !! ty = Some fields →
  cycle_data !! 0%nat = Some a → a !! 0%nat = Some r →
  (length r < length fields)%nat →
  _cycle2df cycle_data meta i = Raise IndexError.
Proof.
  intros Hmeta Hty Ha Hr Hlen. unfold _cycle2df. rewrite Hmeta. simpl.
  unfold dict_get. rewrite Hty. simpl.
  destruct (comprehension _ (enumerate fields)) as [d|e] eqn:Hd; simpl.
  - apply cycle_dict_Ok in Hd as (_ & Hlen' & Hseqs).
    destruct (lookup_lt_is_Some_2 d.*2 (length r)) as [s Hs]; [lia|].
    apply Hseqs, extract_Ok in Hs as (a' & r' & f & Ha' & Hr' & Hf & _).
    rewrite Ha in Ha'. injection Ha' as <-.
    rewrite Hr in Hr'. injection Hr' as <-.
    apply lookup_lt_Some in Hf. lia.
  - apply comprehension_Raise in Hd as ([j name] & _ & Hd). simpl in Hd.
    destruct (extract cycle_data j) as [s|e'] eqn:He; [done|].
    injection Hd as <-. by rewrite (extract_Raise _ _ _ He).
Qed.

Lemma single_samples_ValueError (cycle_data : list (list data_rec)) (meta : metadata)
    (i : nat) (ty : string) (st : datetime) (at_ : float) (fields : list string)
    (seqs : list (list float)) :
  _get_metadata_at meta i = Ok (ty, st, at_) →
  DATA_FIELDS !! ty = Some fields →
  extracted cycle_data fields seqs →
  Forall (λ s, length s = 1%nat) seqs →
  _cycle2df cycle_data meta i = Raise ValueError.
Proof.
  intros Hmeta Hty Hseqs Hone. unfold _cycle2df. rewrite Hmeta. simpl.
  unfold dict_get. rewrite Hty. simpl.
  destruct (DATA_FIELDS_Some _ _ Hty) as (_ & Hne & _).
  assert (length seqs = length fields) as Hlen by apply Hseqs.
  assert ((zip fields seqs).*1 = fields) as Hk by (apply fst_zip; lia).
  assert ((zip fields seqs).*2 = seqs) as Hv by (apply snd_zip; lia).
  assert (comprehension
            (λ jf : nat * string, data ← extract cycle_data jf.1; Ok (jf.2, data))
            (enumerate fields) = Ok (zip fields seqs)) as ->.
  { apply cycle_dict_Ok. by rewrite Hk, Hv. }
  simpl. rewrite DataFrame_of_dict_scalars; [done | |].
  - destruct fields, seqs; done.
  - rewrite array_lengths_unwrap, Hv.
    clear -Hone. induction Hone as [|s seqs Hs _ IH]; [done|].
    rewrite !fmap_cons, filter_cons, IH. by rewrite decide_False by lia.
Qed.

Lemma DataFrame_of_dict_Raise (d : list (string * value)) (e : exn) :
  DataFrame_of_dict d = Raise e → e = ValueError.
Proof.
  unfold DataFrame_of_dict. destruct d; [done|].
  destruct (array_lengths _) as [|n ns]; [by intros [= <-]|].
  destruct (forallb _ _); [done | by intros [= <-]].
Qed.

(** Two fields of more or fewer than one sample and of different lengths:
    the table constructor refuses the cycle. *)
Lemma ragged_lengths_ValueError (cycle_data : list (list data_rec)) (meta : metadata)
    (i : nat) (ty : string) (st : datetime) (at_ : float) (fields : list string)
    (seqs : list (list float)) (s1 s2 : list float) :
  _get_metadata_at meta i = Ok (ty, st, at_) →
  DATA_FIELDS !! ty = Some fields →
  extracted cycle_data fields seqs →
  s1 ∈ seqs → s2 ∈ seqs →
  length s1 ≠ 1%nat → length s2 ≠ 1%nat → length s1 ≠ length s2 →
  _cycle2df cycle_data meta i = Raise ValueError.
Proof.
  intros Hmeta Hty Hseqs Hs1 Hs2 Hl1 Hl2 Hne.
  destruct (_cycle2df cycle_data meta i) as [df|e] eqn:Hdf.
  - apply _cycle2df_Ok in Hdf
      as (ty' & st' & at' & fields' & seqs' & n & Hmeta' & Hty' & Hseqs' & [_ Hn] & _).
    rewrite Hmeta in Hmeta'. injection Hmeta' as <- <- <-.
    rewrite Hty in Hty'. injection Hty' as <-.
    assert (seqs' = seqs) as ->.
    { destruct Hseqs as [Hlen H], Hseqs' as [Hlen' H'].
      apply list_eq_same_length with (length fields); [done..|].
      intros j x y _ Hx%H' Hy%H. rewrite Hx in Hy. by injection Hy. }
    rewrite (Hn s1), (Hn s2) in Hne; done.
  - f_equal. revert Hdf. unfold _cycle2df. rewrite Hmeta. simpl.
    unfold dict_get. rewrite Hty. simpl.
    assert (length seqs = length fields) as Hlen by apply Hseqs.
    assert (comprehension
              (λ jf : nat * string, data ← extract cycle_data jf.1; Ok (jf.2, data))
              (enumerate fields) = Ok (zip fields seqs)) as ->.
    { apply cycle_dict_Ok. rewrite fst_zip, snd_zip by lia. done. }
    simpl. destruct (DataFrame_of_dict _) as [df|e'] eqn:Hdf; simpl; [done|].
    intros [= <-]. by eapply DataFrame_of_dict_Raise.
Qed.

(** ** Field count *)

(** C3 as stated fails for a block with more fields than the schema: a
    charge cycle (six fields expected) whose block has seven fields is
    flattened without error, the seventh field being left out, and
    [read_nasa] returns a table for the file. *)
Lemma surplus_field_accepted :
  DATA_FIELDS !! "charge"%string = Some charge_fields ∧
  length charge_fields = 6%nat ∧
  (∃ a r, data long_cycle !! 0%nat = Some a ∧ a !! 0%nat = Some r ∧
          length r = 7%nat) ∧
  _cycle2df (data long_cycle) ragged_meta 0
  = Ok (cycle_frame 2 charge_fields (take 6 example_sequences)
                    "charge" example_start 24) ∧
  is_Ok (read_nasa (one_file [discharge_cycle; long_cycle]) 5).
Proof.
  split; [by vm_compute|]. split; [done|]. split; [by eexists _, _|].
  split; [by vm_compute|]. eexists. by vm_compute.
Qed.

(** C3, amended: when the data block of a cycle has fewer fields than the
    schema of its type, [_cycle2df] raises [IndexError] and [read_nasa]
    returns no table for the file. *)
Theorem missing_field_fails
    (loadmat : string → result (gmap string (list (list top_rec))))
    (b : Z) (cycles : list (list cycle_rec)) (row : list cycle_rec)
    (i : nat) (c : cycle_rec) (ty : string) (fields : list string)
    (a : list data_rec) (r : data_rec) :
  load_cycles loadmat b = Ok cycles → cycles !! 0%nat = Some row →
  row !! i = Some c → cycle_type c ty →
  DATA_FIELDS !! ty = Some fields →
  data c !! 0%nat = Some a → a !! 0%nat = Some r →
  (length r < length fields)%nat →
  (∀ meta st at_, _get_metadata_at meta i = Ok (ty, st, at_) →
                  _cycle2df (data c) meta i = Raise IndexError) ∧
  raises (read_nasa loadmat b).
Proof.
  intros Hload Hrow Hc Hty Hfields Ha Hr Hlen.
  assert (∀ meta st at_, _get_metadata_at meta i = Ok (ty, st, at_) →
                         _cycle2df (data c) meta i = Raise IndexError) as Hfail.
  { intros meta st at_ Hmeta. by eapply missing_field_IndexError. }
  split; [done|].
  apply (read_nasa_raises loadmat b cycles row i c); [done..|].
  intros meta ty' st at_ Hmeta Hty'. exists IndexError.
  unfold cycle_type in *. rewrite Hty in Hty'. injection Hty' as <-.
  by eapply Hfail.
Qed.

Lemma missing_field_fails_witness :
  (∀ meta st at_, _get_metadata_at meta 1 = Ok ("charge"%string, st, at_) →
                  _cycle2df (data short_cycle) meta 1 = Raise IndexError) ∧
  raises (read_nasa (one_file [discharge_cycle; short_cycle]) 5).
Proof.
  eapply (missing_field_fails (one_file [discharge_cycle; short_cycle]) 5
            [[discharge_cycle; short_cycle]] [discharge_cycle; short_cycle]
            1 short_cycle "charge" charge_fields).
  - by vm_compute.
  - reflexivity.
  - reflexivity.
  - reflexivity.
  - by vm_compute.
  - reflexivity.
  - reflexivity.
  - simpl. lia.
Defined.

(** ** Unknown cycle types *)



(** ** Cycles of a single sample *)

(** C10: when every field sequence of a cycle has exactly one element, the
    table constructor is handed scalars only and [_cycle2df] raises
    [ValueError] instead of returning a one-row table; [read_nasa] then
    returns no table for the file. *)
Theorem single_sample_cycle_fails
    (loadmat : string → result (gmap string (list (list top_rec))))
    (b : Z) (cycles : list (list cycle_rec)) (row : list cycle_rec)
    (i : nat) (c : cycle_rec) (ty : string) (fields : list string)
    (seqs : list (list float)) :
  load_cycles loadmat b = Ok cycles → cycles !! 0%nat = Some row →
  row !! i = Some c → cycle_type c ty →
  DATA_FIELDS !! ty = Some fields →
  extracted (data c) fields seqs →
  Forall (λ s, length s = 1%nat) seqs →
  (∀ meta st at_, _get_metadata_at meta i = Ok (ty, st, at_) →
                  _cycle2df (data c) meta i = Raise ValueError) ∧
  raises (read_nasa loadmat b).
Proof.
  intros Hload Hrow Hc Hty Hfields Hseqs Hone.
  assert (∀ meta st at_, _get_metadata_at meta i = Ok (ty, st, at_) →
                         _cycle2df (data c) meta i = Raise ValueError) as Hfail.
  { intros meta st at_ Hmeta. by eapply single_samples_ValueError. }
  split; [done|].
  apply (read_nasa_raises loadmat b cycles row i c); [done..|].
  intros meta ty' st at_ Hmeta Hty'. exists ValueError.
  unfold cycle_type in *. rewrite Hty in Hty'. injection Hty' as <-.
  by eapply Hfail.
Qed.

Lemma single_sample_cycle_fails_witness :
  (∀ meta st at_, _get_metadata_at meta 0 = Ok ("discharge"%string, st, at_) →
                  _cycle2df (data single_cycle) meta 0 = Raise ValueError) ∧
  raises (read_nasa (one_file [single_cycle]) 5).
Proof.
  eapply (single_sample_cycle_fails (one_file [single_cycle]) 5
            [[single_cycle]] [single_cycle] 0 single_cycle "discharge"
            discharge_fields [[1]; [3]; [5]; [7]; [9]; [11]; [2.1]]%float).
  - by vm_compute.
  - reflexivity.
  - reflexivity.
  - reflexivity.
  - by vm_compute.
  - apply (extracted_of_dict _ _
             (zip discharge_fields [[1]; [3]; [5]; [7]; [9]; [11]; [2.1]]%float)).
    by vm_compute.
  - repeat constructor.
Defined.

(** ** Concatenation *)

Lemma field_column_length (n : nat) (s : list float) :
  (length s ≠ 1%nat → length s = n) → length (field_column n s) = n.
Proof.
  unfold field_column. destruct s as [|x [|y s]]; simpl; intros H.
  - by apply H.
  - apply length_replicate.
  - rewrite length_fmap. by apply H.
Qed.

Lemma cycle_frame_wf n fields seqs ty st at_ :
  common_length seqs n → frame_wf (cycle_frame n fields seqs ty st at_).
Proof.
  intros [_ Hn]. unfold frame_wf. rewrite cycle_frame_nrows.
  unfold cycle_frame. simpl. apply Forall_app. split.
  - apply Forall_forall. intros [k col] Hin. simpl.
    apply list_elem_of_lookup in Hin as [j Hj].
    apply lookup_zip_with_Some in Hj as (k' & col' & [= <- <-] & _ & Hcol).
    apply list_lookup_fmap_Some in Hcol as (s & -> & Hs).
    apply field_column_length, Hn. by eapply list_elem_of_lookup_2.
  - repeat constructor; simpl; apply length_replicate.
Qed.

Lemma _cycle2df_wf (cycle_data : list (list data_rec)) (meta : metadata) (i : nat)
    (df : DataFrame) :
  _cycle2df cycle_data meta i = Ok df → frame_wf df.
Proof.
  intros H. apply _cycle2df_Ok in H as (ty & st & at_ & fields & seqs & n & H).
  destruct H as (_ & _ & _ & Hn & ->). by apply cycle_frame_wf.
Qed.

Lemma assoc_Some_elem {V} (k : string) (v : V) (l : list (string * V)) :
  assoc k l = Some v → (k, v) ∈ l.
Proof.
  induction l as [|[k' v'] l IH]; simpl; [done|].
  destruct (decide (k = k')) as [->|].
  - intros [= ->]. left.
  - intros H. right. by apply IH.
Qed.

Lemma assoc_None {V} (k : string) (l : list (string * V)) :
  assoc k l = None ↔ k ∉ l.*1.
Proof.
  induction l as [|[k' v'] l IH]; simpl.
  - split; [intros _; apply not_elem_of_nil | done].
  - rewrite not_elem_of_cons. destruct (decide (k = k')) as [->|Hne].
    + split; [done | by intros [? _]].
    + rewrite IH. split; [done | by intros [_ ?]].
Qed.

Lemma block_length (name : string) (df : DataFrame) :
  frame_wf df → length (block name df) = nrows df.
Proof.
  intros Hwf. unfold block, column.
  destruct (assoc name (columns df)) as [col|] eqn:Hcol; simpl.
  - apply assoc_Some_elem in Hcol. unfold frame_wf in Hwf.
    rewrite Forall_forall in Hwf. by apply (Hwf _ Hcol).
  - apply length_replicate.
Qed.

Lemma lookup_bind_offset {A B} (f : A → list B) (l : list A) (i r : nat) (x : A) :
  l !! i = Some x → (r < length (f x))%nat →
  (l ≫= f) !! (sum_list ((λ y, length (f y)) <$> take i l) + r)%nat = f x !! r.
Proof.
  revert i. induction l as [|y l IH]; intros i; [by rewrite lookup_nil|].
  rewrite bind_cons. destruct i as [|i]; simpl.
  - intros [= ->] Hr. by rewrite lookup_app_l.
  - intros Hx Hr. rewrite lookup_app_r by lia.
    etrans; [|apply (IH i Hx Hr)]. f_equal. unfold fmap. lia.
Qed.

Lemma length_bind_sum {A B} (f : A → list B) (l : list A) :
  length (l ≫= f) = sum_list ((λ y, length (f y)) <$> l).
Proof.
  induction l as [|y l IH]; [done|].
  rewrite bind_cons, length_app, IH. done.
Qed.

Lemma elem_of_unique (seen names : list string) (x : string) :
  x ∈ unique seen names ↔ x ∈ names ∧ x ∉ seen.
Proof.
  revert seen. induction names as [|y names IH]; intros seen; simpl.
  - rewrite elem_of_nil. by split; [|intros [? _]].
  - destruct (decide (y ∈ seen)) as [Hy|Hy].
    + rewrite IH, elem_of_cons. split; [by intros [? ?]; split; [right|]|].
      intros [[->|?] Hx]; [done | by split].
    + rewrite !elem_of_cons, IH, not_elem_of_cons. split.
      * intros [->|(? & ? & ?)]; [by split; [left|] | by split; [right|]].
      * intros [[->|Hx] Hs]; [by left|].
        destruct (decide (x = y)) as [->|Hne]; [by left | by right].
Qed.

Lemma elem_of_union_columns (objs : list DataFrame) (name : string) :
  name ∈ union_columns objs ↔ ∃ df, df ∈ objs ∧ name ∈ (columns df).*1.
Proof.
  unfold union_columns. rewrite elem_of_unique, list_elem_of_bind. split.
  - intros [(df & ? & ?) _]. by exists df.
  - intros (df & ? & ?). split; [by exists df | apply not_elem_of_nil].
Qed.

Lemma concat_Ok (objs : list DataFrame) (df : DataFrame) :
  concat objs true = Ok df →
  index df = RangeIndex (sum_list (nrows <$> objs)) ∧
  (columns df).*1 = union_columns objs ∧
  ∀ name, name ∈ union_columns objs →
          column df name = Some (objs ≫= block name).
Proof.
  intros H.
  assert (df = mk_frame (RangeIndex (length (objs ≫= index)))
                        ((λ name, (name, objs ≫= block name)) <$> union_columns objs))
    as ->.
  { destruct objs; [done|]. by injection H as <-. }
  clear H. split; [|split]; cbn [index columns].
  - f_equal. apply (length_bind_sum index objs).
  - rewrite <- list_fmap_compose. apply list_fmap_id.
  - intros name Hname. unfold column. cbn [columns].
    by apply (assoc_fmap_key (λ name, objs ≫= block name)).
Qed.

Lemma offset_S (objs : list DataFrame) (i : nat) (df : DataFrame) :
  objs !! i = Some df → offset objs (S i) = (offset objs i + nrows df)%nat.
Proof.
  intros Hdf. unfold offset.
  rewrite (take_S_r _ _ _ Hdf), fmap_app, sum_list_with_app. simpl. lia.
Qed.

Lemma at_row_concat (objs : list DataFrame) (df : DataFrame) (i r : nat)
    (dfi : DataFrame) (name : string) :
  Forall frame_wf objs → concat objs true = Ok df →
  objs !! i = Some dfi → (r < nrows dfi)%nat → name ∈ (columns df).*1 →
  at_row df (offset objs i + r) name
  = if decide (name ∈ (columns dfi).*1) then at_row dfi r name else Some NaN.
Proof.
  intros Hwf Hdf Hi Hr Hname.
  apply concat_Ok in Hdf as (_ & Hcols & Hcol). rewrite Hcols in Hname.
  unfold at_row at 1. rewrite (Hcol name Hname). simpl.
  assert (offset objs i = sum_list ((λ y, length (block name y)) <$> take i objs))
    as ->.
  { unfold offset. f_equal. apply Forall_fmap_ext.
    eapply Forall_impl; [by apply Forall_take|].
    intros y Hy. simpl. symmetry. by apply block_length. }
  assert (frame_wf dfi) as Hwfi.
  { rewrite Forall_forall in Hwf. by eapply Hwf, list_elem_of_lookup_2. }
  rewrite (lookup_bind_offset _ _ _ _ _ Hi) by by rewrite block_length.
  unfold block, at_row, column.
  destruct (assoc name (columns dfi)) as [col|] eqn:Hassoc; simpl.
  - rewrite decide_True; [done|].
    destruct (decide (name ∈ (columns dfi).*1)) as [|Hn]; [done|].
    apply assoc_None in Hn. by rewrite Hn in Hassoc.
  - rewrite decide_False by by apply assoc_None.
    by apply lookup_replicate_2.
Qed.

Lemma unique_ext (seen1 seen2 names : list string) :
  (∀ x, x ∈ seen1 ↔ x ∈ seen2) → unique seen1 names = unique seen2 names.
Proof.
  revert seen1 seen2. induction names as [|x names IH]; intros seen1 seen2 H; simpl.
  - done.
  - destruct (decide (x ∈ seen1)) as [H1|H1], (decide (x ∈ seen2)) as [H2|H2].
    + by apply IH.
    + by apply H in H1.
    + by apply H in H2.
    + f_equal. apply IH. intros y. by rewrite !elem_of_cons, H.
Qed.

Lemma unique_app (seen l r : list string) :
  unique seen (l ++ r) = unique seen l ++ unique (seen ++ l) r.
Proof.
  revert seen. induction l as [|x l IH]; intros seen; simpl.
  - by rewrite app_nil_r.
  - destruct (decide (x ∈ seen)) as [Hx|Hx].
    + rewrite IH. f_equal. apply unique_ext. intros y.
      rewrite !elem_of_app, elem_of_cons. split; [tauto|].
      intros [?|[->|?]]; tauto.
    + simpl. rewrite IH. f_equal. f_equal. apply unique_ext. intros y.
      rewrite !elem_of_app, !elem_of_cons. tauto.
Qed.

Lemma filter_ext_elem (P1 P2 : string → Prop)
    `{!∀ x, Decision (P1 x), !∀ x, Decision (P2 x)} (l : list string) :
  (∀ x, x ∈ l → P1 x ↔ P2 x) → filter P1 l = filter P2 l.
Proof.
  induction l as [|x l IH]; intros Hext; [done|].
  rewrite !filter_cons.
  assert (filter P1 l = filter P2 l) as ->.
  { apply IH. intros y Hy. apply Hext. by right. }
  destruct (decide (P1 x)) as [Hx|Hx].
  - rewrite decide_True; [done|]. apply Hext; [left | done].
  - rewrite decide_False; [done|]. intros Hx'. apply Hx, Hext; [left | done].
Qed.

Lemma unique_NoDup (seen names : list string) :
  NoDup names → unique seen names = filter (λ x, x ∉ seen) names.
Proof.
  intros Hnd. revert seen. induction Hnd as [|x names Hx Hnd IH]; intros seen; simpl.
  - done.
  - rewrite filter_cons. destruct (decide (x ∈ seen)) as [Hs|Hs].
    + rewrite decide_False by tauto. apply IH.
    + rewrite decide_True by done. f_equal. rewrite IH.
      apply filter_ext_elem. intros y Hy. rewrite not_elem_of_cons.
      split; [by intros [_ ?]|]. intros Hy'. split; [|done].
      intros ->. done.
Qed.

Lemma union_columns_first_appearance (seen : list string) (objs : list DataFrame) :
  Forall (λ df, NoDup (columns df).*1) objs →
  unique seen (objs ≫= λ df, (columns df).*1)
  = first_appearance seen ((λ df, (columns df).*1) <$> objs).
Proof.
  intros Hnd. revert seen. induction Hnd as [|df objs Hdf _ IH]; intros seen.
  - done.
  - rewrite bind_cons, fmap_cons, unique_app. cbn [first_appearance].
    rewrite (unique_NoDup _ _ Hdf). f_equal. rewrite <- IH.
    apply unique_ext. intros x.
    rewrite !elem_of_app, list_elem_of_filter. split; [|tauto].
    intros [?|?]; [by left|].
    destruct (decide (x ∈ seen)); [by left | by right].
Qed.

Lemma cycle_frame_names_NoDup (cycle_data : list (list data_rec)) (meta : metadata)
    (i : nat) (df : DataFrame) :
  _cycle2df cycle_data meta i = Ok df → NoDup (columns df).*1.
Proof.
  intros H. apply _cycle2df_Ok in H
    as (ty & st & at_ & fields & seqs & n & _ & Hty & [Hlen _] & _ & ->).
  destruct (DATA_FIELDS_Some _ _ Hty) as (Hnd & _ & H1 & H2 & H3).
  unfold cycle_frame. simpl. rewrite fmap_app, fst_zip by (rewrite length_fmap; lia).
  apply NoDup_app. split; [done|]. split.
  - intros x Hx. simpl. rewrite !elem_of_cons, elem_of_nil.
    intros [->|[->|[->|[]]]]; done.
  - compute_done.
Qed.

(** C6: when [read_nasa] returns a table, it is the concatenation of the
    frames [_cycle2df] returns for the cycles of the file, one per cycle
    and in the order of the file: the rows of cycle [i] start where those
    of the cycles before it end and are followed at once by the rows of
    cycle [i+1]; the row labels are 0, 1, 2, ... up to the total row
    count; the columns are those of the cycle frames, each once and in
    order of first appearance (the columns of the first cycle in their
    order, then for each later cycle its columns not seen before, none
    dropped and none moved); and on the rows of a cycle a column holds the
    cells of that cycle's frame, or the missing value where the frame has
    no such column. *)
Theorem read_nasa_cycle_order
    (loadmat : string → result (gmap string (list (list top_rec))))
    (b : Z) (df : DataFrame) :
  read_nasa loadmat b = Ok df →
  ∃ cycles row meta dfs,
    load_cycles loadmat b = Ok cycles ∧ cycles !! 0%nat = Some row ∧
    _get_metadata cycles = Ok meta ∧
    length dfs = length row ∧
    (∀ i c dfi, row !! i = Some c → dfs !! i = Some dfi →
                _cycle2df (data c) meta i = Ok dfi) ∧
    index df = seq 0 (sum_list (nrows <$> dfs)) ∧
    (∀ name, name ∈ (columns df).*1 ↔ ∃ dfi, dfi ∈ dfs ∧ name ∈ (columns dfi).*1) ∧
    (columns df).*1 = first_appearance [] ((λ dfi, (columns dfi).*1) <$> dfs) ∧
    ∀ i dfi, dfs !! i = Some dfi →
      offset dfs (S i) = (offset dfs i + nrows dfi)%nat ∧
      ∀ r name, (r < nrows dfi)%nat → name ∈ (columns df).*1 →
        at_row df (offset dfs i + r) name
        = if decide (name ∈ (columns dfi).*1) then at_row dfi r name else Some NaN.
Proof.
  unfold read_nasa. intros H.
  apply bind_Ok in H as (cycles & Hload & H).
  apply bind_Ok in H as (meta & Hmeta & H).
  apply bind_Ok in H as (dfs & Hdfs & Hdf).
  assert (∃ row, cycles !! 0%nat = Some row) as [row Hrow].
  { unfold cycle_frames in Hdfs. apply bind_Ok in Hdfs as (drow & Hdrow & _).
    apply getitem_Ok in Hdrow. unfold struct_field in Hdrow.
    rewrite list_lookup_fmap in Hdrow.
    destruct (cycles !! 0%nat) as [row|]; [by exists row | done]. }
  apply (cycle_frames_Ok _ row) in Hdfs as [Hlen Hdfs]; [|done].
  assert (Forall frame_wf dfs) as Hwf.
  { apply Forall_forall. intros dfi [i Hi]%list_elem_of_lookup.
    destruct (lookup_lt_is_Some_2 row i) as [c Hc].
    { rewrite <- Hlen. by eapply lookup_lt_Some. }
    eapply _cycle2df_wf. by apply (Hdfs i c dfi). }
  exists cycles, row, meta, dfs.
  split; [done|]. split; [done|]. split; [done|]. split; [done|]. split; [done|].
  destruct (concat_Ok _ _ Hdf) as (Hindex & Hcols & _).
  split; [done|]. split.
  { intros name. rewrite Hcols. apply elem_of_union_columns. }
  split.
  { rewrite Hcols. apply union_columns_first_appearance.
    apply Forall_forall. intros dfi [i Hi]%list_elem_of_lookup.
    destruct (lookup_lt_is_Some_2 row i) as [c Hc].
    { rewrite <- Hlen. by eapply lookup_lt_Some. }
    eapply cycle_frame_names_NoDup. by apply (Hdfs i c dfi). }
  intros i dfi Hi. split; [by apply offset_S|].
  intros r name Hr Hname. by apply at_row_concat.
Qed.

Lemma read_nasa_cycle_order_witness :
  ∃ cycles row meta dfs,
    load_cycles (one_file [charge_cycle; discharge_cycle]) 5 = Ok cycles ∧
    cycles !! 0%nat = Some row ∧
    _get_metadata cycles = Ok meta ∧
    length dfs = length row ∧
    (∀ i c dfi, row !! i = Some c → dfs !! i = Some dfi →
                _cycle2df (data c) meta i = Ok dfi) ∧
    index two_cycle_table = seq 0 (sum_list (nrows <$> dfs)) ∧
    (∀ name, name ∈ (columns two_cycle_table).*1 ↔
             ∃ dfi, dfi ∈ dfs ∧ name ∈ (columns dfi).*1) ∧
    (columns two_cycle_table).*1
    = first_appearance [] ((λ dfi, (columns dfi).*1) <$> dfs) ∧
    ∀ i dfi, dfs !! i = Some dfi →
      offset dfs (S i) = (offset dfs i + nrows dfi)%nat ∧
      ∀ r name, (r < nrows dfi)%nat → name ∈ (columns two_cycle_table).*1 →
        at_row two_cycle_table (offset dfs i + r) name
        = if decide (name ∈ (columns dfi).*1) then at_row dfi r name else Some NaN.
Proof.
  apply (read_nasa_cycle_order (one_file [charge_cycle; discharge_cycle]) 5
           two_cycle_table).
  by vm_compute.
Defined.

(** A charge frame, then a discharge frame: the columns of the charge
    frame keep their places and [Capacity], new with the discharge frame,
    comes last. *)
Example first_appearance_charge_discharge :
  first_appearance []
    [charge_fields ++ ["type"; "start_time"; "ambient_temp"]%string;
     discharge_fields ++ ["type"; "start_time"; "ambient_temp"]%string]
  = ["Voltage_measured"; "Current_measured"; "Temperature_measured";
     "Current_charge"; "Voltage_charge"; "Time";
     "type"; "start_time"; "ambient_temp"; "Capacity"]%string.
Proof. by vm_compute. Qed.

(** The three rows of the charge cycle come first and have no capacity;
    the two rows of the discharge cycle follow; the columns stand in order
    of first appearance. *)
Example two_cycle_table_rows :
  index two_cycle_table = [0; 1; 2; 3; 4]%nat ∧
  (columns two_cycle_table).*1
  = ["Voltage_measured"; "Current_measured"; "Temperature_measured";
     "Current_charge"; "Voltage_charge"; "Time";
     "type"; "start_time"; "ambient_temp"; "Capacity"]%string ∧
  column two_cycle_table "type"
  = Some (CStr <$> ["charge"; "charge"; "charge"; "discharge"; "discharge"]%string) ∧
  column two_cycle_table "Capacity"
  = Some [NaN; NaN; NaN; CFloat 2.1; CFloat 2.1] ∧
  column two_cycle_table "Time"
  = Some (CFloat <$> [16; 17; 18; 11; 12]%float).
Proof. by vm_compute. Qed.

Lemma get_metadata_parallel_witness :
  (Forall (λ c, (∃ ty, cycle_type c ty) ∧ (∃ st, cycle_start c st)
                ∧ (∃ at_, cycle_ambient c at_)) [charge_cycle; discharge_cycle] →
   is_Ok (_get_metadata [[charge_cycle; discharge_cycle]])) ∧
  ∀ meta, _get_metadata [[charge_cycle; discharge_cycle]] = Ok meta →
    length (types meta) = 2%nat ∧
    length (start_times meta) = 2%nat ∧
    length (ambient_temps meta) = 2%nat ∧
    ∀ i c, [charge_cycle; discharge_cycle] !! i = Some c →
      ∃ ty st at_,
        types meta !! i = Some ty ∧ cycle_type c ty ∧
        start_times meta !! i = Some st ∧ cycle_start c st ∧
        ambient_temps meta !! i = Some at_ ∧ cycle_ambient c at_.
Proof.
  apply (get_metadata_parallel [[charge_cycle; discharge_cycle]]
           [charge_cycle; discharge_cycle]).
  reflexivity.
Defined.

Example example_metadata :
  _get_metadata [[charge_cycle; discharge_cycle]]
  = Ok (mk_meta ["charge"; "discharge"]%string [example_start; example_start]
                [24; 24]%float).
Proof. by vm_compute. Qed.

(** * Further properties *)

(** ** Date vectors: components beyond the sixth, validity, round trip *)

Lemma getitem_app_l {A} (l1 l2 : list A) (k : nat) :
  (k < length l1)%nat → getitem (l1 ++ l2) k = getitem l1 k.
Proof. intros Hk. unfold getitem. by rewrite lookup_app_l. Qed.

(** X1: [_datevec2datetime] reads the components 0 to 5 only: whatever
    follows the sixth component of a date vector has no effect on the
    result, error or timestamp. *)
Theorem datevec_extra_components_ignored (vec extra : list float) :
  (6 ≤ length vec)%nat →
  _datevec2datetime (vec ++ extra) = _datevec2datetime vec.
Proof.
  intros Hlen. unfold _datevec2datetime.
  by rewrite !getitem_app_l by lia.
Qed.

Lemma datevec_extra_components_ignored_witness :
  _datevec2datetime (example_vec ++ [7; 8]%float) = _datevec2datetime example_vec.
Proof. apply datevec_extra_components_ignored. simpl. lia. Defined.

Lemma datetime_new_Ok (y mo d h mi s us : Z) (t : datetime) :
  datetime_new y mo d h mi s us = Ok t ↔
  t = mk_datetime y mo d h mi s us ∧ valid_datetime t.
Proof.
  assert (1 ≤ days_in_month y mo ≤ 31) as Hdim.
  { unfold days_in_month. repeat case_match; lia. }
  unfold datetime_new, valid_datetime, fits_c_int, in_range.
  destruct (forallb _ _) eqn:Hfit.
  - destruct (_ && _) eqn:Hc.
    + repeat (apply andb_prop in Hc as [Hc ?]).
      split; [intros [= <-]; simpl; split; [done | lia] | by intros [-> _]].
    + split; [done|]. intros [-> Hv]. simpl in Hv.
      rewrite !andb_false_iff, !Z.leb_gt in Hc. lia.
  - split; [done|]. intros [-> Hv]. simpl in Hv, Hfit.
    rewrite !andb_false_iff, !Z.leb_gt in Hfit. lia.
Qed.

(** X2: [_datevec2datetime] returns the timestamp [d] exactly when the
    vector has six components whose integer parts are the year, month,
    day, hour, minute and second of [d], the microsecond field of [d] is
    the integer part of a thousand times the fraction of the seconds, and
    these fields are a calendar date and a time of day (the day exists in
    that month of that year, and so on).  For any other components the
    call raises. *)
Theorem datevec_returns_iff (vec : list float) (d : datetime) :
  _datevec2datetime vec = Ok d ↔
  ∃ v0 v1 v2 v3 v4 v5,
    vec !! 0%nat = Some v0 ∧ int v0 = Ok (year d) ∧
    vec !! 1%nat = Some v1 ∧ int v1 = Ok (month d) ∧
    vec !! 2%nat = Some v2 ∧ int v2 = Ok (day d) ∧
    vec !! 3%nat = Some v3 ∧ int v3 = Ok (hour d) ∧
    vec !! 4%nat = Some v4 ∧ int v4 = Ok (minute d) ∧
    vec !! 5%nat = Some v5 ∧ int v5 = Ok (second d) ∧
    int ((v5 - float_of_int (second d)) * 1000)%float = Ok (microsecond d) ∧
    valid_datetime d.
Proof.
  split.
  - intros H.
    destruct (datevec_fields _ _ H)
      as (v0 & v1 & v2 & v3 & v4 & v5 & H0 & Hy & H1 & Hmo & H2 & Hd & H3 & Hh
          & H4 & Hmi & H5 & Hs & Hus).
    exists v0, v1, v2, v3, v4, v5. repeat (split; [done|]).
    unfold _datevec2datetime in H.
    repeat (apply bind_Ok in H as (? & _ & H)).
    by apply datetime_new_Ok in H as [_ ?].
  - intros (v0 & v1 & v2 & v3 & v4 & v5 & H0 & Hy & H1 & Hmo & H2 & Hd & H3 & Hh
            & H4 & Hmi & H5 & Hs & Hus & Hv).
    apply getitem_Ok in H0, H1, H2, H3, H4, H5.
    unfold _datevec2datetime.
    rewrite H0, H1, H2, H3, H4, H5. simpl.
    rewrite Hy, Hmo, Hd, Hh, Hmi, Hs. simpl. rewrite Hus. simpl.
    apply datetime_new_Ok. split; [by destruct d | done].
Qed.

(** A year beyond a C [int] is an overflow, not a range error. *)
Example datevec_year_overflow :
  _datevec2datetime [1e10; 5; 22; 21; 48; 39.015]%float = Raise OverflowError.
Proof. by vm_compute. Qed.

(** February 30 is refused. *)
Example datevec_february_30 :
  _datevec2datetime [2008; 2; 30; 21; 48; 39.015]%float = Raise ValueError.
Proof. by vm_compute. Qed.

(** X3: a component among the first six that has no integer part ([nan] or
    an infinity, on which [int] raises) makes the conversion raise. *)
Theorem datevec_bad_component (vec : list float) (k : nat) (v : float) :
  (k < 6)%nat → vec !! k = Some v → raises (int v) →
  raises (_datevec2datetime vec).
Proof.
  intros Hk Hv Hint. unfold _datevec2datetime.
  assert (raises (getitem vec k ≫= int)) as Hbad.
  { apply getitem_Ok in Hv. by rewrite Hv. }
  do 6 (destruct k as [|k];
        [by apply bind_raises_l | apply bind_raises_r; intros ? _]).
  lia.
Qed.

Lemma datevec_bad_component_witness :
  raises (_datevec2datetime [2008; 5; 22; 21; 48; nan]%float).
Proof.
  apply (datevec_bad_component _ 5 nan); [lia | reflexivity |].
  exists ValueError. by vm_compute.
Defined.

Lemma all_from_spec (fuel : nat) (k : Z) (p : Z → bool) :
  all_from fuel k p = true → ∀ z, k ≤ z < k + Z.of_nat fuel → p z = true.
Proof.
  revert k. induction fuel as [|fuel IH]; intros k; simpl; [lia|].
  destruct (p k) eqn:Hk; [|done]. intros H z Hz.
  destruct (decide (z = k)) as [->|]; [done|]. apply (IH (k + 1)); [done | lia].
Qed.

Lemma int_float_of_int (z : Z) : 0 ≤ z ≤ 9999 → int (float_of_int z) = Ok z.
Proof.
  intros Hz.
  assert (all_from (Z.to_nat 10000) 0
            (λ z, match int (float_of_int z) with
                  | Ok w => w =? z
                  | Raise _ => false
                  end) = true) as Hall by (by vm_compute).
  pose proof (all_from_spec _ _ _ Hall z) as H. cbv beta in H.
  rewrite Z2Nat.id in H by lia.
  assert (0 ≤ z < 0 + 10000) as Hr by lia. specialize (H Hr).
  destruct (int (float_of_int z)) as [w|]; [|done].
  f_equal. by apply Z.eqb_eq.
Qed.

Lemma whole_second_fraction (s : Z) :
  0 ≤ s ≤ 59 →
  int ((float_of_int s - float_of_int s) * 1000)%float = Ok 0.
Proof.
  intros Hs.
  assert (all_from 60 0
            (λ z, match int ((float_of_int z - float_of_int z) * 1000)%float with
                  | Ok w => w =? 0
                  | Raise _ => false
                  end) = true) as Hall by (by vm_compute).
  pose proof (all_from_spec _ _ _ Hall s) as H. cbv beta in H.
  assert (0 ≤ s < 0 + Z.of_nat 60) as Hr by lia. specialize (H Hr).
  destruct (int _) as [w|]; [|done].
  f_equal. by apply Z.eqb_eq.
Qed.

(** X4: the date vector of a calendar date and a time of day in whole
    seconds converts to exactly that timestamp, with a microsecond field
    of 0. *)
Theorem datevec_whole_seconds (y mo d h mi s : Z) :
  valid_datetime (mk_datetime y mo d h mi s 0) →
  _datevec2datetime (whole_datevec y mo d h mi s) = Ok (mk_datetime y mo d h mi s 0).
Proof.
  intros Hv. pose proof Hv as (Hy & Hmo & Hd & Hh & Hmi & Hs & _). simpl in *.
  assert (1 ≤ days_in_month y mo ≤ 31) as Hdim.
  { unfold days_in_month. repeat case_match; lia. }
  unfold _datevec2datetime, whole_datevec. simpl.
  rewrite !int_float_of_int by lia. simpl.
  rewrite whole_second_fraction by lia. simpl.
  by apply datetime_new_Ok.
Qed.

Lemma datevec_whole_seconds_witness :
  _datevec2datetime (whole_datevec 2008 2 29 21 48 39)
  = Ok (mk_datetime 2008 2 29 21 48 39 0).
Proof.
  apply datevec_whole_seconds. unfold valid_datetime. simpl.
  repeat split; try lia; by vm_compute.
Defined.

(** ** Metadata: when it is returned, and for which indices *)

(** X5: [_get_metadata] returns exactly when the cycle struct array has a
    first row and every cycle of that row has a type tag, a date vector
    that converts, and an ambient temperature; one cycle lacking any of
    them makes the extraction raise for the whole file. *)
Theorem get_metadata_returns_iff (cycles : list (list cycle_rec)) :
  is_Ok (_get_metadata cycles) ↔
  ∃ row, cycles !! 0%nat = Some row ∧
         Forall (λ c, (∃ ty, cycle_type c ty) ∧ (∃ st, cycle_start c st)
                      ∧ (∃ at_, cycle_ambient c at_)) row.
Proof.
  split.
  - intros [meta Hmeta].
    destruct (cycles !! 0%nat) as [row|] eqn:Hrow.
    + exists row. split; [done|].
      destruct (proj1 (_get_metadata_Ok _ row meta Hrow) Hmeta)
        as (Htys & Hsts & Hats).
      apply Forall_lookup. intros i c Hc.
      destruct (Forall2_lookup_l _ _ _ _ _ Htys Hc) as (ty & _ & ?).
      destruct (Forall2_lookup_l _ _ _ _ _ Hsts Hc) as (st & _ & ?).
      destruct (Forall2_lookup_l _ _ _ _ _ Hats Hc) as (at_ & _ & ?).
      split; [by exists ty|]. split; [by exists st | by exists at_].
    + unfold _get_metadata in Hmeta.
      apply bind_Ok in Hmeta as (tys & Htys & _).
      apply bind_Ok in Htys as (r & Hr & _).
      apply getitem_Ok in Hr. unfold struct_field in Hr.
      by rewrite list_lookup_fmap, Hrow in Hr.
  - intros (row & Hrow & Hwf).
    assert (∃ tys, Forall2 cycle_type row tys) as [tys Htys].
    { apply Forall_exists_Forall2. eapply Forall_impl; [done|].
      by intros c (? & ? & ?). }
    assert (∃ sts, Forall2 cycle_start row sts) as [sts Hsts].
    { apply Forall_exists_Forall2. eapply Forall_impl; [done|].
      by intros c (? & ? & ?). }
    assert (∃ ats, Forall2 cycle_ambient row ats) as [ats Hats].
    { apply Forall_exists_Forall2. eapply Forall_impl; [done|].
      by intros c (? & ? & ?). }
    exists (mk_meta tys sts ats). by apply (_get_metadata_Ok _ row).
Qed.

(** A struct array without a first row: [cycles['type'][0]] is out of
    range. *)
Example get_metadata_no_row : _get_metadata [] = Raise IndexError.
Proof. reflexivity. Qed.

(** A file whose second cycle has a date vector of five components. *)
Example get_metadata_bad_datevec :
  _get_metadata
    [[charge_cycle;
      mk_cycle ["discharge"%string] [[2008; 5; 22; 21; 48]%float] [[24%float]]
               example_discharge]]
  = Raise IndexError.
Proof. by vm_compute. Qed.

(** X6: on the metadata [_get_metadata] returns for a file,
    [_get_metadata_at] returns a triple for every index below the number
    of cycles and raises [IndexError] for every index from that number
    on. *)
Theorem get_metadata_at_range (cycles : list (list cycle_rec))
    (row : list cycle_rec) (meta : metadata) (i : nat) :
  cycles !! 0%nat = Some row → _get_metadata cycles = Ok meta →
  ((i < length row)%nat → is_Ok (_get_metadata_at meta i)) ∧
  ((length row ≤ i)%nat → _get_metadata_at meta i = Raise IndexError).
Proof.
  intros Hrow Hmeta. split.
  - intros Hi. destruct (lookup_lt_is_Some_2 row i Hi) as [c Hc].
    destruct (_get_metadata_at_cycle _ _ _ _ _ Hrow Hmeta Hc)
      as (ty & st & at_ & H & _).
    by exists (ty, st, at_).
  - intros Hi.
    apply (_get_metadata_Ok _ row) in Hmeta as (Htys & _ & _); [|done].
    apply Forall2_length in Htys. unfold _get_metadata_at.
    assert (getitem (types meta) i = Raise IndexError) as ->; [|done].
    apply getitem_Raise. split; [lia | done].
Qed.

Lemma get_metadata_at_range_witness :
  ((2 < 2)%nat →
   is_Ok (_get_metadata_at
            (mk_meta ["charge"; "discharge"]%string [example_start; example_start]
                     [24; 24]%float) 2)) ∧
  ((2 ≤ 2)%nat →
   _get_metadata_at
     (mk_meta ["charge"; "discharge"]%string [example_start; example_start]
              [24; 24]%float) 2 = Raise IndexError).
Proof.
  apply (get_metadata_at_range [[charge_cycle; discharge_cycle]]
           [charge_cycle; discharge_cycle]).
  - reflexivity.
  - by vm_compute.
Defined.

(** ** The frame of a cycle: errors, columns, shape, what is read *)

Lemma _get_metadata_at_Raise (meta : metadata) (i : nat) (e : exn) :
  _get_metadata_at meta i = Raise e → e = IndexError.
Proof.
  unfold _get_metadata_at. intros H.
  apply bind_Raise in H as [H|(ty & _ & H)]; [by eapply getitem_Raise_IndexError|].
  apply bind_Raise in H as [H|(st & _ & H)]; [by eapply getitem_Raise_IndexError|].
  apply bind_Raise in H as [H|(at_ & _ & H)]; [by eapply getitem_Raise_IndexError|].
  done.
Qed.

Lemma elem_of_enumerate_from {A} (k : nat) (l : list A) (j : nat) (x : A) :
  (j, x) ∈ enumerate_from k l → (k ≤ j < k + length l)%nat.
Proof.
  revert k. induction l as [|y l IH]; intros k; simpl.
  - by rewrite elem_of_nil.
  - rewrite elem_of_cons. intros [[= -> ->]|H]; [lia|]. apply IH in H. lia.
Qed.

Lemma comprehension_ext {A B} (f g : A → result B) (l : list A) :
  (∀ x, x ∈ l → f x = g x) → comprehension f l = comprehension g l.
Proof.
  induction l as [|x l IH]; intros H; simpl; [done|].
  rewrite (H x) by left. rewrite IH; [done|].
  intros y Hy. apply H. by right.
Qed.

(** X7: the exceptions of [_cycle2df].  It raises [IndexError] when the
    cycle index is outside the metadata or a field of the schema cannot be
    read from the data block, [KeyError] when the type tag has no schema,
    and [ValueError] when the field sequences agree on no row count; it
    raises nothing else. *)
Theorem cycle2df_errors (cycle_data : list (list data_rec)) (meta : metadata)
    (i : nat) (e : exn) :
  _cycle2df cycle_data meta i = Raise e →
  (e = IndexError ∧
   (_get_metadata_at meta i = Raise IndexError ∨
    ∃ ty st at_ fields j,
      _get_metadata_at meta i = Ok (ty, st, at_) ∧
      DATA_FIELDS !! ty = Some fields ∧ (j < length fields)%nat ∧
      extract cycle_data j = Raise IndexError)) ∨
  (e = KeyError ∧
   ∃ ty st at_, _get_metadata_at meta i = Ok (ty, st, at_) ∧
                DATA_FIELDS !! ty = None) ∨
  (e = ValueError ∧
   ∃ ty st at_ fields seqs,
     _get_metadata_at meta i = Ok (ty, st, at_) ∧
     DATA_FIELDS !! ty = Some fields ∧
     extracted cycle_data fields seqs ∧ ∀ n, ¬ common_length seqs n).
Proof.
  intros Hraise. pose proof Hraise as H. unfold _cycle2df in H.
  apply bind_Raise in H as [H|([[ty st] at_] & Hmeta & H)].
  { pose proof (_get_metadata_at_Raise _ _ _ H) as ->. left. split; [done | by left]. }
  unfold dict_get in H. destruct (DATA_FIELDS !! ty) as [fields|] eqn:Hty; simpl in H.
  2: { injection H as <-. right. left. split; [done|]. by exists ty, st, at_. }
  apply bind_Raise in H as [H|(d & Hd & H)].
  { apply comprehension_Raise in H as ([j name] & Hin & H). simpl in H.
    destruct (extract cycle_data j) as [s|e'] eqn:He; [done|].
    injection H as ->. pose proof (extract_Raise _ _ _ He) as ->.
    apply elem_of_enumerate_from in Hin.
    left. split; [done|]. right. exists ty, st, at_, fields, j.
    split; [done|]. split; [done|]. split; [lia | done]. }
  destruct (DataFrame_of_dict _) as [df|e'] eqn:Hdf; simpl in H; [done|].
  injection H as ->. pose proof (DataFrame_of_dict_Raise _ _ Hdf) as ->.
  right. right. split; [done|].
  apply cycle_dict_Ok in Hd as [Hkeys Hseqs].
  exists ty, st, at_, fields, d.*2.
  split; [done|]. split; [done|]. split; [done|].
  intros n Hn.
  assert (_cycle2df cycle_data meta i
          = Ok (cycle_frame n fields d.*2 ty st at_)) as Hok.
  { apply _cycle2df_Ok. by exists ty, st, at_, fields, d.*2, n. }
  by rewrite Hraise in Hok.
Qed.

Lemma cycle2df_errors_witness :
  (ValueError = IndexError ∧
   (_get_metadata_at ragged_meta 0 = Raise IndexError ∨
    ∃ ty st at_ fields j,
      _get_metadata_at ragged_meta 0 = Ok (ty, st, at_) ∧
      DATA_FIELDS !! ty = Some fields ∧ (j < length fields)%nat ∧
      extract ragged_charge j = Raise IndexError)) ∨
  (ValueError = KeyError ∧
   ∃ ty st at_, _get_metadata_at ragged_meta 0 = Ok (ty, st, at_) ∧
                DATA_FIELDS !! ty = None) ∨
  (ValueError = ValueError ∧
   ∃ ty st at_ fields seqs,
     _get_metadata_at ragged_meta 0 = Ok (ty, st, at_) ∧
     DATA_FIELDS !! ty = Some fields ∧
     extracted ragged_charge fields seqs ∧ ∀ n, ¬ common_length seqs n).
Proof. apply cycle2df_errors. by vm_compute. Defined.

(** X8: the columns of the frame of a cycle are the fields of the schema
    of its type, in schema order, followed by [type], [start_time] and
    [ambient_temp]; no column name occurs twice. *)
Theorem cycle2df_columns (cycle_data : list (list data_rec)) (meta : metadata)
    (i : nat) (df : DataFrame) :
  _cycle2df cycle_data meta i = Ok df →
  ∃ ty fields,
    types meta !! i = Some ty ∧ DATA_FIELDS !! ty = Some fields ∧
    (columns df).*1 = fields ++ ["type"; "start_time"; "ambient_temp"]%string ∧
    NoDup (columns df).*1.
Proof.
  intros H. apply _cycle2df_Ok in H
    as (ty & st & at_ & fields & seqs & n & Hmeta & Hty & [Hlen _] & _ & ->).
  apply _get_metadata_at_Ok in Hmeta as (Hi & _ & _).
  destruct (DATA_FIELDS_Some _ _ Hty) as (Hnd & _ & H1 & H2 & H3).
  assert ((columns (cycle_frame n fields seqs ty st at_)).*1
          = fields ++ ["type"; "start_time"; "ambient_temp"]%string) as Hcols.
  { unfold cycle_frame. simpl. rewrite fmap_app, fst_zip; [done|].
    rewrite length_fmap. lia. }
  exists ty, fields. split; [done|]. split; [done|]. split; [done|].
  rewrite Hcols. apply NoDup_app. split; [done|]. split.
  - intros x Hx. rewrite !elem_of_cons, elem_of_nil.
    intros [->|[->|[->|[]]]]; done.
  - compute_done.
Qed.

Lemma cycle2df_columns_witness :
  ∃ ty fields,
    types example_meta !! 0%nat = Some ty ∧ DATA_FIELDS !! ty = Some fields ∧
    (columns example_frame).*1
    = fields ++ ["type"; "start_time"; "ambient_temp"]%string ∧
    NoDup (columns example_frame).*1.
Proof.
  apply (cycle2df_columns example_discharge example_meta 0). by vm_compute.
Defined.

(** X9: the frame of a cycle is rectangular: its row labels are 0, 1, ...
    and every column, field or metadata, has one cell for each row. *)
Theorem cycle2df_rectangular (cycle_data : list (list data_rec)) (meta : metadata)
    (i : nat) (df : DataFrame) :
  _cycle2df cycle_data meta i = Ok df →
  index df = seq 0 (nrows df) ∧
  ∀ name col, column df name = Some col → length col = nrows df.
Proof.
  intros H. pose proof (_cycle2df_wf _ _ _ _ H) as Hwf.
  apply _cycle2df_Ok in H as (ty & st & at_ & fields & seqs & n & _ & _ & _ & _ & ->).
  split.
  - by rewrite cycle_frame_nrows.
  - intros name col Hcol. apply assoc_Some_elem in Hcol.
    unfold frame_wf in Hwf. rewrite Forall_forall in Hwf. by apply (Hwf _ Hcol).
Qed.

Lemma cycle2df_rectangular_witness :
  index example_frame = seq 0 (nrows example_frame) ∧
  ∀ name col, column example_frame name = Some col →
              length col = nrows example_frame.
Proof.
  apply (cycle2df_rectangular example_discharge example_meta 0). by vm_compute.
Defined.

(** X10: [_cycle2df] never returns a table of exactly one row: the row
    count is the length of a field sequence that does not have one
    element. *)
Theorem cycle2df_never_one_row (cycle_data : list (list data_rec)) (meta : metadata)
    (i : nat) (df : DataFrame) :
  _cycle2df cycle_data meta i = Ok df → nrows df ≠ 1%nat.
Proof.
  intros H. apply _cycle2df_Ok in H
    as (ty & st & at_ & fields & seqs & n & _ & _ & _ & Hn & ->).
  rewrite cycle_frame_nrows. destruct Hn as [(s & Hs & Hne) Hall].
  by rewrite <- (Hall s Hs Hne).
Qed.

Lemma cycle2df_never_one_row_witness : nrows example_frame ≠ 1%nat.
Proof.
  apply (cycle2df_never_one_row example_discharge example_meta 0). by vm_compute.
Defined.

Lemma _cycle2df_ext (cd1 cd2 : list (list data_rec)) (meta : metadata) (i : nat) :
  (∀ ty st at_ fields j,
     _get_metadata_at meta i = Ok (ty, st, at_) →
     DATA_FIELDS !! ty = Some fields → (j < length fields)%nat →
     extract cd1 j = extract cd2 j) →
  _cycle2df cd1 meta i = _cycle2df cd2 meta i.
Proof.
  intros Hext. unfold _cycle2df.
  destruct (_get_metadata_at meta i) as [[[ty st] at_]|e] eqn:Hmeta; simpl; [|done].
  unfold dict_get. destruct (DATA_FIELDS !! ty) as [fields|] eqn:Hty; simpl; [|done].
  rewrite (comprehension_ext
             (λ jf : nat * string, data ← extract cd1 jf.1; Ok (jf.2, data))
             (λ jf : nat * string, data ← extract cd2 jf.1; Ok (jf.2, data))); [done|].
  intros [j name] Hin. simpl. apply elem_of_enumerate_from in Hin.
  rewrite (Hext ty st at_ fields j); [done..|lia].
Qed.

Lemma extract_cons (r : data_rec) (a : list data_rec) (cd : list (list data_rec))
    (j : nat) :
  extract ((r :: a) :: cd) j = f ← getitem r j; getitem f 0%nat.
Proof. reflexivity. Qed.

(** X11: the fields of a data block are read by position up to the length
    of the schema; fields after those are never read, so appending fields
    to a block that has at least as many as the schema changes nothing. *)
Theorem cycle2df_surplus_fields_ignored (r extra : data_rec) (a : list data_rec)
    (cd : list (list data_rec)) (meta : metadata) (i : nat)
    (ty : string) (st : datetime) (at_ : float) (fields : list string) :
  _get_metadata_at meta i = Ok (ty, st, at_) →
  DATA_FIELDS !! ty = Some fields →
  (length fields ≤ length r)%nat →
  _cycle2df (((r ++ extra) :: a) :: cd) meta i = _cycle2df ((r :: a) :: cd) meta i.
Proof.
  intros Hmeta Hty Hlen. apply _cycle2df_ext.
  intros ty' st' at' fields' j Hmeta' Hty' Hj.
  rewrite Hmeta in Hmeta'. injection Hmeta' as <- <- <-.
  rewrite Hty in Hty'. injection Hty' as <-.
  rewrite !extract_cons. by rewrite getitem_app_l by lia.
Qed.

Lemma cycle2df_surplus_fields_ignored_witness :
  _cycle2df [[example_charge_block ++ [[[2.1]]]%float]] ragged_meta 0
  = _cycle2df [[example_charge_block]] ragged_meta 0.
Proof.
  apply (cycle2df_surplus_fields_ignored _ _ _ _ _ _ "charge" example_start 24
           charge_fields).
  - reflexivity.
  - by vm_compute.
  - simpl. lia.
Defined.

Lemma getitem_first_row {A} (r : list (list A)) (j : nat) :
  (f ← getitem (take 1 <$> r) j; getitem f 0%nat)
  = (f ← getitem r j; getitem f 0%nat).
Proof.
  unfold getitem. rewrite list_lookup_fmap.
  destruct (r !! j) as [f|]; simpl; [|done]. by destruct f.
Qed.

(** X12: of the data of a cycle [_cycle2df] reads the element [0][0] only,
    and of each field of that block the first row only: the other elements
    and the further rows of a field (the samples of a field stored as a
    column) do not reach the table. *)
Theorem cycle2df_first_rows_only (r : data_rec) (a : list data_rec)
    (cd : list (list data_rec)) (meta : metadata) (i : nat) :
  _cycle2df ((r :: a) :: cd) meta i = _cycle2df [[take 1 <$> r]] meta i.
Proof.
  apply _cycle2df_ext. intros _ _ _ _ j _ _ _.
  rewrite !extract_cons. symmetry. apply getitem_first_row.
Qed.

(** A field stored as a column of three samples contributes its first
    sample, as a scalar. *)
Example column_field_first_sample :
  ∃ df, _cycle2df
          [[ [ [[1; 2]]; [[3; 4]]; [[5; 6]]; [[7; 8]]; [[9; 10]];
               [[11]; [12]; [13]] ]%float ]] ragged_meta 0 = Ok df ∧
        column df "Time" = Some [CFloat 11; CFloat 11].
Proof. eexists. by vm_compute. Qed.

(** ** The whole file: when a table is returned, which error otherwise *)

Section WholeFileMore.

Variable loadmat : string → result (gmap string (list (list top_rec))).

Lemma read_nasa_Ok_inv (b : Z) (df : DataFrame) :
  read_nasa loadmat b = Ok df →
  ∃ cycles row meta dfs,
    load_cycles loadmat b = Ok cycles ∧ cycles !! 0%nat = Some row ∧
    _get_metadata cycles = Ok meta ∧ length dfs = length row ∧
    (∀ i c dfi, row !! i = Some c → dfs !! i = Some dfi →
                _cycle2df (data c) meta i = Ok dfi) ∧
    concat dfs true = Ok df.
Proof.
  unfold read_nasa. intros H.
  apply bind_Ok in H as (cycles & Hload & H).
  apply bind_Ok in H as (meta & Hmeta & H).
  apply bind_Ok in H as (dfs & Hdfs & Hdf).
  assert (∃ row, cycles !! 0%nat = Some row) as [row Hrow].
  { unfold cycle_frames in Hdfs. apply bind_Ok in Hdfs as (drow & Hdrow & _).
    apply getitem_Ok in Hdrow. unfold struct_field in Hdrow.
    rewrite list_lookup_fmap in Hdrow.
    destruct (cycles !! 0%nat) as [row|]; [by exists row | done]. }
  apply (cycle_frames_Ok _ row) in Hdfs as [Hlen Hdfs]; [|done].
  by exists cycles, row, meta, dfs.
Qed.

Lemma read_nasa_frames_wf (row : list cycle_rec) (meta : metadata)
    (dfs : list DataFrame) :
  length dfs = length row →
  (∀ i c dfi, row !! i = Some c → dfs !! i = Some dfi →
              _cycle2df (data c) meta i = Ok dfi) →
  ∀ dfi, dfi ∈ dfs → ∃ c i, _cycle2df (data c) meta i = Ok dfi.
Proof.
  intros Hlen Hdfs dfi [i Hi]%list_elem_of_lookup.
  destruct (lookup_lt_is_Some_2 row i) as [c Hc].
  { rewrite <- Hlen. by eapply lookup_lt_Some. }
  exists c, i. by apply (Hdfs i c dfi).
Qed.

(** X13: a file that loads but holds no cycle gives no empty table:
    [concat] has nothing to concatenate and [read_nasa] raises
    [ValueError]. *)
Theorem read_nasa_no_cycles (b : Z) (cycles : list (list cycle_rec)) :
  load_cycles loadmat b = Ok cycles → cycles !! 0%nat = Some [] →
  read_nasa loadmat b = Raise ValueError.
Proof.
  intros Hload Hrow. unfold read_nasa. rewrite Hload. simpl.
  unfold _get_metadata, cycle_frames. by rewrite !(struct_field_row _ _ _ Hrow).
Qed.

(** X14: [read_nasa] returns a table exactly when the file loads, holds at
    least one cycle, its metadata can be extracted and every cycle has a
    frame: one cycle without a frame leaves the whole file without
    table. *)
Theorem read_nasa_returns_iff (b : Z) :
  is_Ok (read_nasa loadmat b) ↔
  ∃ cycles row meta,
    load_cycles loadmat b = Ok cycles ∧ cycles !! 0%nat = Some row ∧ row ≠ [] ∧
    _get_metadata cycles = Ok meta ∧
    ∀ i c, row !! i = Some c → is_Ok (_cycle2df (data c) meta i).
Proof.
  split.
  - intros [df Hdf].
    apply read_nasa_Ok_inv in Hdf
      as (cycles & row & meta & dfs & Hload & Hrow & Hmeta & Hlen & Hdfs & Hdf).
    exists cycles, row, meta.
    split; [done|]. split; [done|]. split; [|split; [done|]].
    + intros ->. by destruct dfs.
    + intros i c Hc. destruct (lookup_lt_is_Some_2 dfs i) as [dfi Hi].
      { rewrite Hlen. by eapply lookup_lt_Some. }
      exists dfi. by apply Hdfs.
  - intros (cycles & row & meta & Hload & Hrow & Hne & Hmeta & Hall).
    by apply (read_nasa_returns loadmat b cycles row meta).
Qed.

Lemma comprehension_first_Raise {A B} (f : A → result B) (l : list A)
    (i : nat) (x : A) (e : exn) :
  l !! i = Some x → f x = Raise e →
  (∀ j y, (j < i)%nat → l !! j = Some y → is_Ok (f y)) →
  comprehension f l = Raise e.
Proof.
  revert i. induction l as [|z l IH]; intros i; [by rewrite lookup_nil|].
  destruct i as [|i]; simpl.
  - intros [= ->] -> _. done.
  - intros Hx He Hbefore.
    destruct (Hbefore 0%nat z) as [y ->]; [lia | done|]. simpl.
    rewrite (IH i); [done..|].
    intros j y' Hj Hy'. apply (Hbefore (S j)); [lia | done].
Qed.

(** X15: the cycles are flattened in file order and the first failure is
    the failure of [read_nasa]: when the metadata is there and the cycles
    before cycle [i] have frames, the exception of cycle [i] is the one
    raised, whatever the cycles after it hold. *)
Theorem read_nasa_first_error (b : Z) (cycles : list (list cycle_rec))
    (row : list cycle_rec) (meta : metadata) (i : nat) (c : cycle_rec)
    (e : exn) :
  load_cycles loadmat b = Ok cycles → cycles !! 0%nat = Some row →
  _get_metadata cycles = Ok meta →
  row !! i = Some c → _cycle2df (data c) meta i = Raise e →
  (∀ j c', (j < i)%nat → row !! j = Some c' →
           is_Ok (_cycle2df (data c') meta j)) →
  read_nasa loadmat b = Raise e.
Proof.
  intros Hload Hrow Hmeta Hc He Hbefore. unfold read_nasa.
  rewrite Hload. simpl. rewrite Hmeta. simpl.
  assert (cycle_frames cycles meta = Raise e) as ->; [|done].
  unfold cycle_frames. rewrite (struct_field_row _ _ _ Hrow). simpl.
  assert (∀ j c', row !! j = Some c' →
            (cd ← getitem (data <$> row) j; _cycle2df cd meta j)
            = _cycle2df (data c') meta j) as Hstep.
  { intros j c' Hc'.
    assert (getitem (data <$> row) j = Ok (data c')) as ->; [|done].
    apply getitem_Ok. by rewrite list_lookup_fmap, Hc'. }
  apply (comprehension_first_Raise _ _ i i).
  - apply lookup_seq_lt. rewrite length_fmap. by eapply lookup_lt_Some.
  - by rewrite (Hstep i c).
  - intros j y Hj [-> Hy]%lookup_seq. simpl.
    destruct (lookup_lt_is_Some_2 row j) as [c' Hc'].
    { apply lookup_lt_Some in Hc. lia. }
    rewrite (Hstep j c' Hc'). by apply Hbefore.
Qed.

(** X16: a missing top-level variable or an empty top-level struct is the
    error of [read_nasa]: [KeyError] when the file has no variable named
    after the battery, [IndexError] when that variable has no element
    [0,0]. *)
Theorem read_nasa_top_level (b : Z)
    (mat_contents : gmap string (list (list top_rec))) :
  loadmat (file_path b) = Ok mat_contents →
  (mat_contents !! battery_name b = None → read_nasa loadmat b = Raise KeyError) ∧
  (∀ top_level, mat_contents !! battery_name b = Some top_level →
     top_level = [] ∨ top_level !! 0%nat = Some [] →
     read_nasa loadmat b = Raise IndexError).
Proof.
  intros Hload. unfold read_nasa, load_cycles. rewrite Hload. simpl.
  unfold dict_get. split.
  - by intros ->.
  - intros top_level -> [->|H0]; [done|]. simpl.
    apply getitem_Ok in H0. by rewrite H0.
Qed.

End WholeFileMore.

Lemma read_nasa_no_cycles_witness :
  read_nasa (one_file []) 5 = Raise ValueError.
Proof. apply (read_nasa_no_cycles _ 5 [[]]); by vm_compute. Defined.

Lemma read_nasa_first_error_witness :
  read_nasa (one_file [discharge_cycle; rest_cycle; short_cycle]) 5
  = Raise KeyError.
Proof.
  apply (read_nasa_first_error _ 5
           [[discharge_cycle; rest_cycle; short_cycle]]
           [discharge_cycle; rest_cycle; short_cycle]
           (mk_meta ["discharge"; "rest"; "charge"]%string
                    [example_start; example_start; example_start]
                    [24; 24; 24]%float)
           1 rest_cycle).
  - by vm_compute.
  - reflexivity.
  - by vm_compute.
  - reflexivity.
  - by vm_compute.
  - intros j c' Hj Hc'. assert (j = 0%nat) as -> by lia.
    injection Hc' as <-. eexists. by vm_compute.
Defined.

Lemma read_nasa_top_level_witness :
  ((∅ : gmap string (list (list top_rec))) !! battery_name 5 = None →
   read_nasa (λ _, Ok ∅) 5 = Raise KeyError) ∧
  (∀ top_level,
     (∅ : gmap string (list (list top_rec))) !! battery_name 5 = Some top_level →
     top_level = [] ∨ top_level !! 0%nat = Some [] →
     read_nasa (λ _, Ok ∅) 5 = Raise IndexError).
Proof. apply (read_nasa_top_level (λ _, Ok ∅) 5 ∅). reflexivity. Defined.

(** ** The table of a file: shape and metadata columns *)

Lemma NoDup_unique (seen names : list string) : NoDup (unique seen names).
Proof.
  revert seen. induction names as [|x names IH]; intros seen; simpl.
  - constructor.
  - destruct (decide (x ∈ seen)); [apply IH|]. constructor; [|apply IH].
    rewrite elem_of_unique. intros [_ Hx]. apply Hx. left.
Qed.

Lemma concat_columns (objs : list DataFrame) (df : DataFrame) :
  concat objs true = Ok df →
  objs ≠ [] ∧
  df = mk_frame (RangeIndex (sum_list (nrows <$> objs)))
                ((λ name, (name, objs ≫= block name)) <$> union_columns objs).
Proof.
  intros H. destruct objs as [|df0 objs]; [done|]. split; [done|].
  injection H as <-. f_equal. f_equal.
  apply (length_bind_sum index (df0 :: objs)).
Qed.

Lemma block_lengths (name : string) (objs : list DataFrame) :
  Forall frame_wf objs →
  length (objs ≫= block name) = sum_list (nrows <$> objs).
Proof.
  intros Hwf. rewrite length_bind_sum. f_equal. apply Forall_fmap_ext.
  eapply Forall_impl; [done|]. intros df Hdf. by apply block_length.
Qed.

Lemma DATA_FIELDS_known (ty : string) (fields : list string) :
  DATA_FIELDS !! ty = Some fields → known_type ty.
Proof.
  intros H. unfold known_type.
  destruct (decide (ty = "charge"%string)); [by left|].
  destruct (decide (ty = "discharge"%string)); [by right; left|].
  destruct (decide (ty = "impedance"%string)); [by right; right|].
  by rewrite DATA_FIELDS_None in H.
Qed.

(** X17: the table [read_nasa] returns is rectangular and its columns have
    distinct names: the row labels are 0, 1, ..., every column has one
    cell for each row, and no column name occurs twice although every
    cycle frame brings its own columns. *)
Theorem read_nasa_rectangular
    (loadmat : string → result (gmap string (list (list top_rec))))
    (b : Z) (df : DataFrame) :
  read_nasa loadmat b = Ok df →
  index df = seq 0 (nrows df) ∧
  NoDup (columns df).*1 ∧
  ∀ name col, column df name = Some col → length col = nrows df.
Proof.
  intros H. apply read_nasa_Ok_inv in H
    as (cycles & row & meta & dfs & _ & _ & _ & Hlen & Hdfs & Hdf).
  assert (Forall frame_wf dfs) as Hwf.
  { apply Forall_forall. intros dfi Hin.
    destruct (read_nasa_frames_wf row meta dfs Hlen Hdfs dfi Hin) as (c & i & Hi).
    by eapply _cycle2df_wf. }
  apply concat_columns in Hdf as [_ ->].
  unfold nrows, RangeIndex. simpl. rewrite length_seq.
  split; [done|]. split.
  - rewrite <- list_fmap_compose. simpl. rewrite list_fmap_id. apply NoDup_unique.
  - intros name col Hcol. unfold column in Hcol. simpl in Hcol.
    apply assoc_Some_elem, list_elem_of_fmap in Hcol as (name' & [= -> ->] & _).
    by apply block_lengths.
Qed.

Lemma read_nasa_rectangular_witness :
  index two_cycle_table = seq 0 (nrows two_cycle_table) ∧
  NoDup (columns two_cycle_table).*1 ∧
  ∀ name col, column two_cycle_table name = Some col →
              length col = nrows two_cycle_table.
Proof.
  apply (read_nasa_rectangular (one_file [charge_cycle; discharge_cycle]) 5).
  by vm_compute.
Defined.

Lemma offset_cover (objs : list DataFrame) (k : nat) :
  (k < sum_list (nrows <$> objs))%nat →
  ∃ i dfi r, objs !! i = Some dfi ∧ (r < nrows dfi)%nat ∧ k = (offset objs i + r)%nat.
Proof.
  revert k. induction objs as [|df0 objs IH]; intros k; [simpl; lia|].
  rewrite fmap_cons. change (sum_list (nrows df0 :: (nrows <$> objs)))
    with (nrows df0 + sum_list (nrows <$> objs))%nat.
  intros Hk. destruct (decide (k < nrows df0)%nat) as [Hlt|Hge].
  - exists 0%nat, df0, k. by repeat split.
  - destruct (IH (k - nrows df0)%nat) as (i & dfi & r & Hi & Hr & Hkr); [lia|].
    exists (S i), dfi, r. split; [done|]. split; [done|].
    unfold offset in *. rewrite firstn_cons, fmap_cons.
    change (sum_list (nrows df0 :: (nrows <$> take i objs)))
      with (nrows df0 + sum_list (nrows <$> take i objs))%nat.
    lia.
Qed.

Lemma column_Some_name (df : DataFrame) (name : string) (col : list cell) :
  column df name = Some col → name ∈ (columns df).*1.
Proof.
  intros H. apply assoc_Some_elem in H. apply list_elem_of_fmap.
  by exists (name, col).
Qed.

(** X18: in the table of a file the three metadata columns are filled on
    every row with the metadata of the cycle the row belongs to: every
    row lies in the block of one cycle, and on each row of the block of
    cycle [i] the [type] cell is the type tag of cycle [i] (a tag that has
    a schema), the [start_time] cell is its converted date vector and the
    [ambient_temp] cell is its ambient temperature; the cells added for
    missing columns never stand in their place. *)
Theorem read_nasa_metadata_columns
    (loadmat : string → result (gmap string (list (list top_rec))))
    (b : Z) (df : DataFrame) :
  read_nasa loadmat b = Ok df →
  ∃ cycles row meta dfs,
    load_cycles loadmat b = Ok cycles ∧ cycles !! 0%nat = Some row ∧
    _get_metadata cycles = Ok meta ∧ length dfs = length row ∧
    (∀ i c dfi, row !! i = Some c → dfs !! i = Some dfi →
                _cycle2df (data c) meta i = Ok dfi) ∧
    (∀ k, (k < nrows df)%nat →
          ∃ i dfi r, dfs !! i = Some dfi ∧ (r < nrows dfi)%nat ∧
                     k = (offset dfs i + r)%nat) ∧
    ∀ i c dfi r, row !! i = Some c → dfs !! i = Some dfi → (r < nrows dfi)%nat →
      ∃ ty st at_,
        cycle_type c ty ∧ known_type ty ∧ cycle_start c st ∧ cycle_ambient c at_ ∧
        at_row df (offset dfs i + r) "type" = Some (CStr ty) ∧
        at_row df (offset dfs i + r) "start_time" = Some (CTime st) ∧
        at_row df (offset dfs i + r) "ambient_temp" = Some (CFloat at_).
Proof.
  intros H. apply read_nasa_Ok_inv in H
    as (cycles & row & meta & dfs & Hload & Hrow & Hmeta & Hlen & Hdfs & Hdf).
  assert (Forall frame_wf dfs) as Hwf.
  { apply Forall_forall. intros dfi Hin.
    destruct (read_nasa_frames_wf row meta dfs Hlen Hdfs dfi Hin) as (c & i & Hi).
    by eapply _cycle2df_wf. }
  exists cycles, row, meta, dfs.
  split; [done|]. split; [done|]. split; [done|]. split; [done|]. split; [done|].
  pose proof (concat_Ok _ _ Hdf) as (Hindex & Hnames & _).
  split.
  { intros k Hk. apply offset_cover.
    unfold nrows at 1 in Hk. rewrite Hindex in Hk. unfold RangeIndex in Hk.
    by rewrite length_seq in Hk. }
  intros i c dfi r Hc Hi Hr.
  destruct (_get_metadata_at_cycle _ _ _ _ _ Hrow Hmeta Hc)
    as (ty & st & at_ & Hat & Hty & Hst & Hamb).
  pose proof (Hdfs i c dfi Hc Hi) as Hframe.
  apply _cycle2df_Ok in Hframe
    as (ty' & st' & at' & fields & seqs & n & Hat' & Hfields & [Hl _] & _ & Hdfi).
  rewrite Hat in Hat'. injection Hat' as <- <- <-.
  destruct (DATA_FIELDS_Some _ _ Hfields) as (_ & _ & H1 & H2 & H3).
  destruct (cycle_frame_meta_column n fields seqs ty st at_ Hl H1 H2 H3)
    as (Hc1 & Hc2 & Hc3).
  rewrite <- Hdfi in Hc1, Hc2, Hc3.
  assert (nrows dfi = n) as Hn by (rewrite Hdfi; apply cycle_frame_nrows).
  assert (∀ name col, column dfi name = Some col →
            at_row df (offset dfs i + r) name = col !! r) as Hcell.
  { intros name col Hcol.
    pose proof (column_Some_name _ _ _ Hcol) as Hin.
    rewrite (at_row_concat dfs df i r dfi name Hwf Hdf Hi Hr).
    - rewrite decide_True by done. unfold at_row. by rewrite Hcol.
    - rewrite Hnames. apply elem_of_union_columns. exists dfi.
      split; [by eapply list_elem_of_lookup_2 | done]. }
  exists ty, st, at_.
  split; [done|]. split; [by eapply DATA_FIELDS_known|].
  split; [done|]. split; [done|].
  rewrite (Hcell _ _ Hc1), (Hcell _ _ Hc2), (Hcell _ _ Hc3).
  rewrite !lookup_replicate_2 by lia. done.
Qed.

Lemma read_nasa_metadata_columns_witness :
  ∃ cycles row meta dfs,
    load_cycles (one_file [charge_cycle; discharge_cycle]) 5 = Ok cycles ∧
    cycles !! 0%nat = Some row ∧
    _get_metadata cycles = Ok meta ∧ length dfs = length row ∧
    (∀ i c dfi, row !! i = Some c → dfs !! i = Some dfi →
                _cycle2df (data c) meta i = Ok dfi) ∧
    (∀ k, (k < nrows two_cycle_table)%nat →
          ∃ i dfi r, dfs !! i = Some dfi ∧ (r < nrows dfi)%nat ∧
                     k = (offset dfs i + r)%nat) ∧
    ∀ i c dfi r, row !! i = Some c → dfs !! i = Some dfi → (r < nrows dfi)%nat →
      ∃ ty st at_,
        cycle_type c ty ∧ known_type ty ∧ cycle_start c st ∧ cycle_ambient c at_ ∧
        at_row two_cycle_table (offset dfs i + r) "type" = Some (CStr ty) ∧
        at_row two_cycle_table (offset dfs i + r) "start_time" = Some (CTime st) ∧
        at_row two_cycle_table (offset dfs i + r) "ambient_temp"
        = Some (CFloat at_).
Proof.
  apply (read_nasa_metadata_columns (one_file [charge_cycle; discharge_cycle]) 5).
  by vm_compute.
Defined.

(** The ambient temperature of each cycle on each of its rows. *)
Example two_cycle_table_metadata :
  column two_cycle_table "ambient_temp" = Some (CFloat <$> [24; 24; 24; 24; 24]%float) ∧
  column two_cycle_table "start_time"
  = Some (CTime <$> replicate 5 example_start).
Proof. by vm_compute. Qed.

(** ** The file name: one file per index *)

Lemma string_length_app (s t : string) :
  String.length (s +:+ t) = (String.length s + String.length t)%nat.
Proof. induction s as [|c s IH]; simpl; [done | by rewrite IH]. Qed.

Lemma string_app_inj_r (s1 s2 t : string) : s1 +:+ t = s2 +:+ t → s1 = s2.
Proof.
  revert s2. induction s1 as [|c s1 IH]; intros [|c' s2]; simpl; [done| | |].
  - intros H. apply (f_equal String.length) in H. simpl in H.
    rewrite !string_length_app in H. simpl in H. lia.
  - intros H. apply (f_equal String.length) in H. simpl in H.
    rewrite !string_length_app in H. simpl in H. lia.
  - intros [= -> H]. f_equal. by apply IH.
Qed.

Lemma decode_digits_zero (s : string) :
  s ≠ ""%string → decode_digits (String "0" s) = decode_digits s.
Proof.
  intros Hs. unfold decode_digits. destruct s as [|c s]; [done|].
  cbn [DecimalString.NilZero.uint_of_string DecimalString.NilEmpty.uint_of_string].
  by destruct (DecimalString.uint_of_char c _).
Qed.

Lemma decode_digits_digits (n : N) :
  digits n ≠ ""%string ∧ decode_digits (digits n) = Some n.
Proof.
  unfold decode_digits, digits.
  assert (N.to_uint n ≠ Decimal.Nil) as Hnil.
  { rewrite <- (DecimalN.Unsigned.of_to n), DecimalN.Unsigned.to_of.
    apply DecimalFacts.unorm_nonnil. }
  rewrite DecimalString.NilZero.usu by done. simpl.
  split; [|by rewrite DecimalN.Unsigned.of_to].
  by destruct (N.to_uint n).
Qed.

Lemma decode_digits_zeros (k : nat) (s : string) :
  s ≠ ""%string →
  string_of_list_ascii (replicate k "0"%char) +:+ s ≠ ""%string ∧
  decode_digits (string_of_list_ascii (replicate k "0"%char) +:+ s)
  = decode_digits s.
Proof.
  intros Hs. induction k as [|k [IH1 IH2]]; [done|].
  change (string_of_list_ascii (replicate (S k) "0"%char) +:+ s)
    with (String "0" (string_of_list_ascii (replicate k "0"%char) +:+ s)).
  split; [done|]. by rewrite decode_digits_zero.
Qed.

Lemma decode_digits_zfill (width : nat) (n : N) :
  decode_digits (zfill width (digits n)) = Some n.
Proof.
  destruct (decode_digits_digits n) as [Hne Hn]. unfold zfill.
  by rewrite (proj2 (decode_digits_zeros _ _ Hne)).
Qed.

Lemma decode_digits_minus (s : string) : decode_digits (String "-" s) = None.
Proof.
  unfold decode_digits. simpl.
  by destruct (DecimalString.NilEmpty.uint_of_string s).
Qed.

Lemma format_02d_inj (i j : Z) : format_02d i = format_02d j → i = j.
Proof.
  unfold format_02d. intros H.
  assert (∀ s, ("-" +:+ s)%string = String "-" s) as Hminus by done.
  rewrite !Hminus in H.
  destruct (Z.ltb_spec i 0) as [Hi|Hi], (Z.ltb_spec j 0) as [Hj|Hj].
  - injection H as H. apply (f_equal decode_digits) in H.
    rewrite !decode_digits_zfill in H. injection H as H. lia.
  - apply (f_equal decode_digits) in H.
    by rewrite decode_digits_zfill, decode_digits_minus in H.
  - apply (f_equal decode_digits) in H.
    by rewrite decode_digits_zfill, decode_digits_minus in H.
  - apply (f_equal decode_digits) in H.
    rewrite !decode_digits_zfill in H. injection H as H. lia.
Qed.

(** X19: two different battery indices never name the same file, so
    [read_nasa] cannot load the file of one battery for another. *)
Theorem file_path_injective (i j : Z) : i ≠ j → file_path i ≠ file_path j.
Proof.
  intros Hne H. apply Hne. unfold file_path, battery_name in H.
  apply format_02d_inj.
  injection H as H. by apply string_app_inj_r in H.
Qed.

Lemma file_path_injective_witness : file_path 5 ≠ file_path (-5).
Proof. apply file_path_injective. lia. Defined.

Lemma string_length_replicate (k : nat) (c : ascii) :
  String.length (string_of_list_ascii (replicate k c)) = k.
Proof. induction k as [|k IH]; simpl; [done | by rewrite IH]. Qed.

Lemma zfill_length (width : nat) (s : string) :
  String.length (zfill width s) = (width `max` String.length s)%nat.
Proof. unfold zfill. rewrite string_length_app, string_length_replicate. lia. Qed.

Lemma format_02d_length (i : Z) : (2 ≤ String.length (format_02d i))%nat.
Proof.
  unfold format_02d. destruct (i <? 0).
  - rewrite string_length_app, zfill_length. simpl. lia.
  - rewrite zfill_length. lia.
Qed.

(** X20: the index is written with at least two characters and is never
    cut: the name of a battery has at least five characters, and the
    decimal digits of a non-negative index can be read back from the
    characters after [B00]. *)
Theorem battery_name_width (i : Z) :
  (5 ≤ String.length (battery_name i))%nat ∧
  (0 ≤ i → ∃ s, battery_name i = "B00" +:+ s ∧ decode_digits s = Some (Z.to_N i)).
Proof.
  split.
  - unfold battery_name. rewrite string_length_app.
    pose proof (format_02d_length i). simpl. lia.
  - intros Hi. exists (format_02d i). split; [done|].
    unfold format_02d. destruct (Z.ltb_spec i 0); [lia|].
    apply decode_digits_zfill.
Qed.

Example battery_name_examples :
  battery_name 5 = "B0005"%string ∧ battery_name 18 = "B0018"%string ∧
  battery_name 100 = "B00100"%string ∧ battery_name (-5) = "B00-5"%string.
Proof. by vm_compute. Qed.
